(** * ZeroesToBeginning: moving the zeroes of an [int] array to its front

    A shallow embedding of [src/ZeroesToBeginning.cc].  The two movers
    take a raw pointer and an [int] count, read and write the array through
    the pointer and return [0] or [-1].  They are embedded as programs of a
    small state-and-error monad over a block memory, so that null pointers,
    wild pointers, out-of-bounds accesses, signed overflow and the scratch
    allocation of the first mover are all visible in the model. *)

From Stdlib Require Import ZArith Lia.
From stdpp Require Import base list gmap strings.

Local Open Scope Z_scope.

(** ** Machine integers *)

(** [int] is a 32-bit signed integer.  Signed overflow is undefined
    behaviour in C++, so arithmetic is checked and not wrapped. *)
Definition INT_MIN : Z := - 2 ^ 31.
Definition INT_MAX : Z := 2 ^ 31 - 1.

Definition in_int (z : Z) : bool := (INT_MIN <=? z) && (z <=? INT_MAX).

(** ** Pointers and memory *)

(** A pointer is either an integer cast to a pointer ([NULL] is [Raw 0],
    and the harness also passes the integer 1 cast to a pointer) or the
    base of a live array object. *)
Inductive ptr : Type :=
| Raw (a : Z)
| Block (b : positive).

Definition NULL : ptr := Raw 0.

Definition ptr_eqb (p q : ptr) : bool :=
  match p, q with
  | Raw a, Raw b => a =? b
  | Block a, Block b => (a =? b)%positive
  | _, _ => false
  end.

(** Accesses made through a pointer, recorded in program order. *)
Inductive event : Type :=
| EvLoad (b : positive) (i : Z)
| EvStore (b : positive) (i : Z) (v : Z)
| EvAlloc (b : positive) (n : Z)
| EvFree (b : positive).

(** The machine state: the live array objects, the next unused block
    name, the trace of memory events, and a ghost counter of cursor
    advances ([++x] and [--x] on a loop cursor). *)
Record state : Type := mkState {
  mem : gmap positive (list Z);
  next_block : positive;
  trace : list event;
  steps : nat
}.

Definition emit (e : event) (s : state) : state :=
  mkState (mem s) (next_block s) (trace s ++ [e]) (steps s).

Definition set_block (b : positive) (l : list Z) (s : state) : state :=
  mkState (<[b := l]> (mem s)) (next_block s) (trace s) (steps s).

(** Every live block lies below the allocation pointer. *)
Definition wf_state (s : state) : Prop :=
  ∀ b, (next_block s <= b)%positive → mem s !! b = None.

(** ** The monad of C++ computations *)

Inductive outcome (A : Type) : Type :=
| Ok (a : A) (s : state)     (* normal completion *)
| Undefined                  (* undefined behaviour *)
| Thrown                     (* std::bad_array_new_length *)
| OutOfFuel.                 (* the loop budget of the model ran out *)

Arguments Ok {A} a s.
Arguments Undefined {A}.
Arguments Thrown {A}.
Arguments OutOfFuel {A}.

Definition M (A : Type) : Type := state → outcome A.

Definition ret {A} (a : A) : M A := fun s => Ok a s.

Definition bind {A B} (k : A → M B) (m : M A) : M B :=
  fun s =>
    match m s with
    | Ok a s' => k a s'
    | Undefined => Undefined
    | Thrown => Thrown
    | OutOfFuel => OutOfFuel
    end.

(** stdpp's monad notations: [x ← m; k] and [m;; k]. *)
#[global] Instance M_ret : MRet M := @ret.
#[global] Instance M_bind : MBind M := @bind.

Definition undefined {A} : M A := fun _ => Undefined.

(** ** Primitive operations *)

(** [a - b] and [a + b] on [int]. *)
Definition int_sub (a b : Z) : M Z :=
  if in_int (a - b) then mret (a - b) else undefined.

Definition int_add (a b : Z) : M Z :=
  if in_int (a + b) then mret (a + b) else undefined.

(** One advance of a loop cursor. *)
Definition tick : M unit :=
  fun s => Ok tt (mkState (mem s) (next_block s) (trace s) (S (steps s))).

(** [--x] and [++x]. *)
Definition decr (x : Z) : M Z := tick;; int_sub x 1.
Definition incr (x : Z) : M Z := tick;; int_add x 1.

(** [p[i]] as an rvalue. *)
Definition load (p : ptr) (i : Z) : M Z :=
  fun s =>
    match p with
    | Raw _ => Undefined
    | Block b =>
        match mem s !! b with
        | None => Undefined
        | Some l =>
            if 0 <=? i then
              match l !! Z.to_nat i with
              | Some v => Ok v (emit (EvLoad b i) s)
              | None => Undefined
              end
            else Undefined
        end
    end.

(** [p[i] = v]. *)
Definition store (p : ptr) (i : Z) (v : Z) : M unit :=
  fun s =>
    match p with
    | Raw _ => Undefined
    | Block b =>
        match mem s !! b with
        | None => Undefined
        | Some l =>
            if (0 <=? i) && (i <? Z.of_nat (length l)) then
              Ok tt (emit (EvStore b i v) (set_block b (<[Z.to_nat i := v]> l) s))
            else Undefined
        end
    end.

(** [new int[n]()]: a fresh block of [n] value-initialised (zero) cells.
    A negative [n] makes the new-expression throw.  Memory is taken to be
    unbounded, so a non-negative request always succeeds. *)
Definition new_int_array (n : Z) : M ptr :=
  fun s =>
    if n <? 0 then Thrown
    else
      let b := next_block s in
      Ok (Block b)
         (mkState (<[b := replicate (Z.to_nat n) 0]> (mem s)) (Pos.succ b)
                  (trace s ++ [EvAlloc b n]) (steps s)).

(** [memcpy(dst, src, n * sizeof(int))]: the first [n] cells of [src]
    replace the first [n] cells of [dst]; the two objects must be distinct
    and hold at least [n] cells each. *)
Definition memcpy (dst src : ptr) (n : Z) : M unit :=
  fun s =>
    match dst, src with
    | Block d, Block c =>
        match mem s !! d, mem s !! c with
        | Some ld, Some lc =>
            if (0 <=? n) && (n <=? Z.of_nat (length ld))
               && (n <=? Z.of_nat (length lc)) && negb (d =? c)%positive then
              let k := Z.to_nat n in
              Ok tt (mkState (<[d := take k lc ++ drop k ld]> (mem s))
                             (next_block s)
                             (trace s
                                ++ map (fun i => EvLoad c (Z.of_nat i)) (seq 0 k)
                                ++ imap (fun i v => EvStore d (Z.of_nat i) v) (take k lc))
                             (steps s))
            else Undefined
        | _, _ => Undefined
        end
    | _, _ => Undefined
    end.

(** [delete p] on the scratch buffer: the block stops being live.  (The
    source spells it [delete] and not [delete[]]; for an array of [int]
    every mainstream implementation releases the whole block, which is
    what is modelled.) *)
Definition delete_array (p : ptr) : M unit :=
  fun s =>
    match p with
    | Raw a => if a =? 0 then Ok tt s else Undefined
    | Block b =>
        match mem s !! b with
        | None => Undefined
        | Some _ =>
            Ok tt (mkState (delete b (mem s)) (next_block s)
                           (trace s ++ [EvFree b]) (steps s))
        end
    end.

(** ** Loops *)

(** [while (cond) body] over the local variables [L] the loop updates.
    The model bounds the number of iterations by [fuel]; the theorems
    below show which budget is always enough. *)
Fixpoint while {L : Type} (fuel : nat) (cond : L → M bool) (body : L → M L)
    (l : L) : M L :=
  match fuel with
  | O => fun _ => OutOfFuel
  | S fuel' =>
      c ← cond l;
      if c : bool then l' ← body l; while fuel' cond body l' else mret l
  end.

(** ** The two movers *)

(** The body of the main loop of the first mover, lines 63-67, followed
    by the [--i] of the loop header. *)
Definition runtime_body (array output_array : ptr) : Z * Z → M (Z * Z) :=
  λ '(i, next_output_array),
    v ← load array i;
    next_output_array ←
      (if negb (v =? 0) then
         w ← load array i;
         store output_array next_output_array w;;
         decr next_output_array
       else mret next_output_array);
    i ← decr i;
    mret (i, next_output_array).

(** The main loop, line 62, from the cursors [i] and
    [next_output_array]. *)
Definition runtime_loop (fuel : nat) (array output_array : ptr)
    (i next_output_array : Z) : M (Z * Z) :=
  while fuel
    (λ '(i, next_output_array), mret (0 <=? i))
    (runtime_body array output_array)
    (i, next_output_array).

(** Lines 51-72. *)
Definition ZeroesToBeginningRuntimeOptimized (fuel : nat) (array : ptr)
    (array_size : Z) : M Z :=
  if ptr_eqb array NULL then mret (-1)
  else if array_size =? 0 then mret (-1)
  else
    output_array ← new_int_array array_size;
    next_output_array ← int_sub array_size 1;
    i ← int_sub array_size 1;
    runtime_loop fuel array output_array i next_output_array;;
    memcpy array output_array array_size;;
    delete_array output_array;;
    mret 0.

(** The inner loop of the second mover, lines 98-100: the test reads
    [array[next_zero]] first and compares the cursors only when it is
    zero. *)
Definition skip_zeroes (fuel : nat) (array : ptr) (i : Z) (next_zero : Z)
    : M Z :=
  while fuel
    (λ next_zero,
       v ← load array next_zero;
       if v =? 0 then mret (next_zero <? i) else mret false)
    (λ next_zero, incr next_zero)
    next_zero.

(** The body of the outer loop of the second mover, lines 97-104,
    followed by the [--i] of the loop header. *)
Definition space_body (fuel : nat) (array : ptr) : Z * Z → M (Z * Z) :=
  λ '(i, next_zero),
    v ← load array i;
    next_zero ←
      (if v =? 0 then
         next_zero ← skip_zeroes fuel array i next_zero;
         w ← load array next_zero;
         store array i w;;
         store array next_zero 0;;
         mret next_zero
       else mret next_zero);
    i ← decr i;
    mret (i, next_zero).

(** The outer loop, line 96, from the cursors [i] and [next_zero]. *)
Definition space_loop (fuel : nat) (array : ptr) (i next_zero : Z)
    : M (Z * Z) :=
  while fuel
    (λ '(i, next_zero), mret (next_zero <? i))
    (space_body fuel array)
    (i, next_zero).

(** Lines 86-107. *)
Definition ZeroesToBeginningSpaceOptimized (fuel : nat) (array : ptr)
    (array_size : Z) : M Z :=
  if ptr_eqb array NULL then mret (-1)
  else if array_size =? 0 then mret (-1)
  else
    let next_zero := 0 in
    i ← int_sub array_size 1;
    space_loop fuel array i next_zero;;
    mret 0.

(** The two movers share one signature (the harness takes either through
    a function pointer). *)
Inductive mover : Type := RuntimeOptimized | SpaceOptimized.

Definition run_mover (f : mover) : nat → ptr → Z → M Z :=
  match f with
  | RuntimeOptimized => ZeroesToBeginningRuntimeOptimized
  | SpaceOptimized => ZeroesToBeginningSpaceOptimized
  end.

(** The content of the array a pointer designates, if any. *)
Definition array_at (s : state) (p : ptr) : option (list Z) :=
  match p with
  | Raw _ => None
  | Block b => mem s !! b
  end.

(** ** Specification vocabulary *)

(** The number of zero-valued elements. *)
Definition count_zeroes (l : list Z) : nat := length (filter (λ x, x = 0) l).

(** The non-zero elements, in their order of appearance. *)
Definition nonzeroes (l : list Z) : list Z := filter (λ x, x ≠ 0) l.

(** Indices [0, z) of [l] hold zero and indices [z, length l) hold
    non-zero values. *)
Definition zero_prefix (z : nat) (l : list Z) : Prop :=
  (∀ i, (i < z)%nat → l !! i = Some 0) ∧
  (∀ i, (z ≤ i < length l)%nat → ∃ v, l !! i = Some v ∧ v ≠ 0).

(** A valid call: the state is well formed, [array] designates a live
    array whose content is [l], and [array_size] is its length, at least
    one (and an [int]). *)
Definition valid_input (s : state) (array : ptr) (array_size : Z)
    (l : list Z) : Prop :=
  wf_state s ∧ array_at s array = Some l ∧
  Z.of_nat (length l) = array_size ∧ 1 ≤ array_size ≤ INT_MAX.

(** The scratch-buffer construction in the words of the specification.
    One step of the backward scan: a non-zero element is placed at the
    write cursor, which then moves down by one; a zero is skipped. *)
Definition scratch_step (acc : list Z * Z) (x : Z) : list Z * Z :=
  let '(buffer, cursor) := acc in
  if decide (x = 0) then (buffer, cursor)
  else (<[Z.to_nat cursor := x]> buffer, cursor - 1).

(** The scan over [l] from its last element to its first, from a given
    buffer and cursor. *)
Definition scratch_scan (l : list Z) (acc : list Z * Z) : list Z * Z :=
  foldl scratch_step acc (reverse l).

(** A zero-initialised buffer of the same length, the write cursor at
    [size - 1], the backward scan, and the buffer as the new content. *)
Definition scratch_construction (l : list Z) : list Z :=
  fst (scratch_scan l (replicate (length l) 0, Z.of_nat (length l) - 1)).

(** The two facts the cursors of the second mover maintain, with the
    indices as the code has them: everything below [next_zero] is zero,
    everything above [i] is non-zero. *)
Definition zeroes_below (next_zero : Z) (l : list Z) : Prop :=
  ∀ j, 0 ≤ j < next_zero → l !! Z.to_nat j = Some 0.

Definition nonzeroes_above (i : Z) (l : list Z) : Prop :=
  ∀ j, i < j < Z.of_nat (length l) → ∃ v, l !! Z.to_nat j = Some v ∧ v ≠ 0.

(** The invariant of the outer loop at its test.  Either the cursors have
    not crossed, or the last iteration ran [next_zero] into [i], zeroed
    that cell and stepped [i] below it. *)
Definition space_inv (i next_zero : Z) (l : list Z) : Prop :=
  0 ≤ next_zero ∧ i < Z.of_nat (length l) ∧ zeroes_below next_zero l ∧
  (next_zero ≤ i ∧ nonzeroes_above i l
   ∨ i = next_zero - 1 ∧ zeroes_below (next_zero + 1) l
     ∧ nonzeroes_above next_zero l).

(** ** Comparing two calls *)

(** Two states seen through two pairs of corresponding pointers: the
    arrays they designate have the same content.  Nothing else of the
    states is compared (other blocks, block names, trace, counters). *)
Definition sim (a1 a2 o1 o2 : ptr) (s1 s2 : state) : Prop :=
  array_at s1 a1 = array_at s2 a2 ∧ array_at s1 o1 = array_at s2 o2.

Definition ptr_sim (a1 a2 o1 o2 : ptr) (p1 p2 : ptr) : Prop :=
  (p1 = a1 ∧ p2 = a2) ∨ (p1 = o1 ∧ p2 = o2).

(** Two computations agree when, started in related states, they cannot
    both return without returning the same value in related states. *)
Definition agree {A} (R : state → state → Prop) (m1 m2 : M A) : Prop :=
  ∀ s1 s2 r1 r2 s1' s2',
    R s1 s2 → m1 s1 = Ok r1 s1' → m2 s2 = Ok r2 s2' → r1 = r2 ∧ R s1' s2'.

(** What makes two calls calls on equal inputs: the same raw pointer, or
    two live arrays of equal content. *)
Definition same_input (s1 : state) (a1 : ptr) (s2 : state) (a2 : ptr)
    : Prop :=
  match a1, a2 with
  | Raw x, Raw y => x = y
  | Block b1, Block b2 => mem s1 !! b1 = mem s2 !! b2 ∧ is_Some (mem s1 !! b1)
  | _, _ => False
  end.

(** The call returns the failure indicator. *)
Definition returns_failure (f : mover) (fuel : nat) (s : state) (array : ptr)
    (array_size : Z) : Prop :=
  ∃ s', run_mover f fuel array array_size s = Ok (-1) s'.

(** Rejection of every non-positive count, as section 7 of the
    specification words it. *)
Definition rejects_nonpositive (f : mover) (fuel : nat) (s : state)
    (array : ptr) (array_size : Z) : Prop :=
  returns_failure f fuel s array array_size ↔ (array = NULL ∨ array_size ≤ 0).

(** A state holding one array, as the harness builds it. *)
Definition one_array (l : list Z) : state :=
  mkState {[ 1%positive := l ]} 2%positive [] 0.

Definition test_array : list Z := [1;2;3;4;5;6;7;8;0;0].

Definition result_of {A} (o : outcome A) : option (A * option (list Z)) :=
  match o with
  | Ok a s => Some (a, mem s !! 1%positive)
  | _ => None
  end.


(** ** The test harness *)

(** Console output.  A harness computation threads the text written to
    [cout] so far through a computation of [M]. *)
Definition IO (A : Type) : Type := string → M (A * string).

Definition io_ret {A} (a : A) : IO A := λ out, mret (a, out).

Definition io_bind {A B} (k : A → IO B) (m : IO A) : IO B :=
  λ out, m out ≫= λ '(a, out'), k a out'.

#[global] Instance IO_ret : MRet IO := @io_ret.
#[global] Instance IO_bind : MBind IO := @io_bind.

(** A computation that prints nothing. *)
Definition lift {A} (m : M A) : IO A := λ out, a ← m; mret (a, out).

(** [cout << t]. *)
Definition cout (t : string) : IO unit := λ out, mret (tt, out +:+ t).

Definition endl : string := String (Ascii.ascii_of_nat 10) "".

(** A local array with an initialiser: a fresh block holding [l]. *)
Definition local_array (l : list Z) : M ptr :=
  fun s =>
    let b := next_block s in
    Ok (Block b)
       (mkState (<[b := l]> (mem s)) (Pos.succ b)
                (trace s ++ [EvAlloc b (Z.of_nat (length l))]) (steps s)).

(** The end of the scope of a local array. *)
Definition end_of_scope (p : ptr) : M unit :=
  fun s =>
    match p with
    | Raw _ => Undefined
    | Block b =>
        match mem s !! b with
        | None => Undefined
        | Some _ =>
            Ok tt (mkState (delete b (mem s)) (next_block s)
                           (trace s ++ [EvFree b]) (steps s))
        end
    end.

(** [memcmp(p, q, n * sizeof(int)) != 0]: whether the first [n] cells of
    the two arrays differ.  (The harness uses nothing else of the result
    of [memcmp].) *)
Definition memcmp_ne (p q : ptr) (n : Z) : M bool :=
  fun s =>
    match p, q with
    | Block a, Block b =>
        match mem s !! a, mem s !! b with
        | Some la, Some lb =>
            if (0 <=? n) && (n <=? Z.of_nat (length la))
               && (n <=? Z.of_nat (length lb)) then
              let k := Z.to_nat n in
              Ok (negb (bool_decide (take k la = take k lb)))
                 (mkState (mem s) (next_block s)
                          (trace s
                             ++ map (fun i => EvLoad a (Z.of_nat i)) (seq 0 k)
                             ++ map (fun i => EvLoad b (Z.of_nat i)) (seq 0 k))
                          (steps s))
            else Undefined
        | _, _ => Undefined
        end
    | _, _ => Undefined
    end.

(** The two outputs the harness accepts, lines 119-120. *)
Definition expected_output_array_1 : list Z := [0;0;1;2;3;4;5;6;7;8].
Definition expected_output_array_2 : list Z := [0;0;3;4;5;6;7;8;2;1].

(** The state in which the pass scenario calls the function under
    test: its three local arrays are live, in the next three blocks. *)
Definition pass_scenario_entry (s : state) : state :=
  let t := next_block s in
  let e1 := Pos.succ t in
  let e2 := Pos.succ e1 in
  mkState (<[e2 := expected_output_array_2]>
             (<[e1 := expected_output_array_1]>
                (<[t := test_array]> (mem s))))
          (Pos.succ e2)
          (((trace s ++ [EvAlloc t 10]) ++ [EvAlloc e1 10]) ++ [EvAlloc e2 10])
          (steps s).

(** Lines 113-139.  The function under test is passed as the harness
    passes it, a function of a pointer and a count. *)
Definition UnitTestPassScenario (function_under_test : ptr → Z → M Z)
    (function_description : string) : IO Z :=
  let pass := true in
  test_array ← lift (local_array test_array);
  expected_1 ← lift (local_array expected_output_array_1);
  expected_2 ← lift (local_array expected_output_array_2);
  cout ("UnitTestPassScenario (" +:+ function_description +:+ ")... ");;
  r ← lift (function_under_test test_array 10);
  let pass := if negb (r =? 0) then false else pass in
  d1 ← lift (memcmp_ne test_array expected_1 10);
  d ← (if d1 : bool then lift (memcmp_ne test_array expected_2 10)
       else mret false);
  let pass := if d : bool then false else pass in
  status ← (if pass then cout ("Ok" +:+ endl);; mret 0
            else cout ("FAIL" +:+ endl);; mret (-1));
  lift (end_of_scope expected_2;; end_of_scope expected_1;;
        end_of_scope test_array);;
  mret status.

(** Lines 145-168. *)
Definition UnitTestFailScenario (function_under_test : ptr → Z → M Z)
    (function_description : string) : IO Z :=
  let pass := true in
  cout ("UnitTestFailScenario (" +:+ function_description +:+ ")... ");;
  r ← lift (function_under_test NULL 0);
  let pass := if r =? 0 then false else pass in
  r ← lift (function_under_test NULL 1);
  let pass := if r =? 0 then false else pass in
  r ← lift (function_under_test (Raw 1) 0);
  let pass := if r =? 0 then false else pass in
  if pass then cout ("Ok" +:+ endl);; mret 0
  else cout ("FAIL" +:+ endl);; mret (-1).

(** Lines 30-38. *)
Definition main (fuel : nat) : IO Z :=
  cout (endl +:+ "Move all zero values in a random array to its beginning"
        +:+ endl +:+ endl);;
  UnitTestPassScenario (ZeroesToBeginningRuntimeOptimized fuel)
    "RuntimeOptimized";;
  UnitTestFailScenario (ZeroesToBeginningRuntimeOptimized fuel)
    "RuntimeOptimized";;
  UnitTestPassScenario (ZeroesToBeginningSpaceOptimized fuel)
    "SpaceOptimized  ";;
  UnitTestFailScenario (ZeroesToBeginningSpaceOptimized fuel)
    "SpaceOptimized  ";;
  cout (endl +:+ "Execution finished" +:+ endl +:+ endl);;
  mret 0.

(** What a run of the program writes when all four scenarios pass. *)
Definition transcript : string :=
  endl +:+ "Move all zero values in a random array to its beginning"
  +:+ endl +:+ endl
  +:+ "UnitTestPassScenario (RuntimeOptimized)... Ok" +:+ endl
  +:+ "UnitTestFailScenario (RuntimeOptimized)... Ok" +:+ endl
  +:+ "UnitTestPassScenario (SpaceOptimized  )... Ok" +:+ endl
  +:+ "UnitTestFailScenario (SpaceOptimized  )... Ok" +:+ endl
  +:+ endl +:+ "Execution finished" +:+ endl +:+ endl.

(** ** An array object longer than the count *)

(** The second state is the first with the cells [t] appended to block
    [b]: same block names, same content everywhere else. *)
Definition extends (b : positive) (t : list Z) (s1 s2 : state) : Prop :=
  next_block s1 = next_block s2 ∧ (b < next_block s1)%positive ∧
  (∀ c, c ≠ b → mem s1 !! c = mem s2 !! c) ∧
  ∃ l, mem s1 !! b = Some l ∧ mem s2 !! b = Some (l ++ t).

(** Whenever the first computation returns from a state, the second
    returns the same value from any related state, in related states. *)
Definition simulates {A} (R : state → state → Prop) (m1 m2 : M A) : Prop :=
  ∀ s1 s2 r s1',
    R s1 s2 → m1 s1 = Ok r s1' → ∃ s2', m2 s2 = Ok r s2' ∧ R s1' s2'.

(** * Proofs *)

(** ** The monad *)

Lemma bind_run {A B} (m : M A) (k : A → M B) s a s1 :
  m s = Ok a s1 → (m ≫= k) s = k a s1.
Proof. intros H. unfold mbind, M_bind, bind. by rewrite H. Qed.

Lemma bind_Ok_inv {A B} (m : M A) (k : A → M B) s b s2 :
  (m ≫= k) s = Ok b s2 → ∃ a s1, m s = Ok a s1 ∧ k a s1 = Ok b s2.
Proof.
  unfold mbind, M_bind, bind. destruct (m s) as [a s1| | |]; try discriminate.
  eauto.
Qed.

Lemma ret_run {A} (a : A) s : (mret a : M A) s = Ok a s.
Proof. reflexivity. Qed.

Lemma in_int_true z : INT_MIN ≤ z ≤ INT_MAX → in_int z = true.
Proof.
  intros [H1 H2]. unfold in_int.
  apply andb_true_intro; split; by apply Z.leb_le.
Qed.

Lemma int_sub_run a b s :
  INT_MIN ≤ a - b ≤ INT_MAX → int_sub a b s = Ok (a - b) s.
Proof. intros H. unfold int_sub. by rewrite in_int_true. Qed.

Lemma int_add_run a b s :
  INT_MIN ≤ a + b ≤ INT_MAX → int_add a b s = Ok (a + b) s.
Proof. intros H. unfold int_add. by rewrite in_int_true. Qed.

Lemma decr_run x s :
  INT_MIN < x ≤ INT_MAX →
  decr x s = Ok (x - 1) (mkState (mem s) (next_block s) (trace s) (S (steps s))).
Proof.
  intros H. unfold decr. erewrite bind_run by reflexivity.
  apply int_sub_run. lia.
Qed.

Lemma incr_run x s :
  INT_MIN ≤ x < INT_MAX →
  incr x s = Ok (x + 1) (mkState (mem s) (next_block s) (trace s) (S (steps s))).
Proof.
  intros H. unfold incr. erewrite bind_run by reflexivity.
  apply int_add_run. lia.
Qed.

Lemma load_run b l i v s :
  mem s !! b = Some l → 0 ≤ i → l !! Z.to_nat i = Some v →
  load (Block b) i s = Ok v (emit (EvLoad b i) s).
Proof.
  intros Hb H0 Hi. unfold load. rewrite Hb.
  destruct (Z.leb_spec 0 i); [|lia]. by rewrite Hi.
Qed.

Lemma store_run b l i v s :
  mem s !! b = Some l → 0 ≤ i < Z.of_nat (length l) →
  store (Block b) i v s
  = Ok tt (emit (EvStore b i v) (set_block b (<[Z.to_nat i := v]> l) s)).
Proof.
  intros Hb Hi. unfold store. rewrite Hb.
  destruct (Z.leb_spec 0 i); [|lia].
  by destruct (Z.ltb_spec i (Z.of_nat (length l))); [|lia].
Qed.

Lemma INT_MAX_eq : INT_MAX = 2147483647.
Proof. reflexivity. Qed.

Lemma INT_MIN_eq : INT_MIN = -2147483648.
Proof. reflexivity. Qed.

(** ** The scratch-buffer construction, in closed form *)

Lemma scratch_scan_snoc l x acc :
  scratch_scan (l ++ [x]) acc = scratch_scan l (scratch_step acc x).
Proof. unfold scratch_scan. by rewrite reverse_snoc. Qed.

Lemma scratch_fold_closed r : ∀ (m : nat) (done : list Z),
  (length (nonzeroes r) ≤ m)%nat →
  foldl scratch_step (replicate m 0 ++ done, Z.of_nat m - 1) r
  = (replicate (m - length (nonzeroes r)) 0 ++ reverse (nonzeroes r) ++ done,
     Z.of_nat m - 1 - Z.of_nat (length (nonzeroes r))).
Proof.
  unfold nonzeroes.
  induction r as [|x r IH]; intros m done Hm; simpl.
  - rewrite Nat.sub_0_r. f_equal. lia.
  - destruct (decide (x = 0)) as [->|Hx].
    + rewrite filter_cons_False by (intros H; by apply H).
      rewrite filter_cons_False in Hm by (intros H; by apply H).
      by apply IH.
    + rewrite filter_cons_True by done.
      rewrite filter_cons_True in Hm by done. simpl in Hm.
      destruct m as [|m]; [lia|].
      replace (Z.to_nat (Z.of_nat (S m) - 1)) with (length (replicate m 0%Z) + 0)%nat
        by (rewrite length_replicate; lia).
      rewrite replicate_S_end, <- app_assoc. simpl.
      rewrite insert_app_r. simpl.
      replace (Z.of_nat (S m) - 1 - 1) with (Z.of_nat m - 1) by lia.
      rewrite (IH m (x :: done)) by lia.
      rewrite reverse_cons, <- app_assoc. simpl. f_equal. lia.
Qed.

Lemma scratch_step_bounds buf cur x buf' cur' :
  scratch_step (buf, cur) x = (buf', cur') →
  length buf' = length buf ∧ cur - 1 ≤ cur' ≤ cur.
Proof.
  unfold scratch_step. destruct (decide (x = 0)); intros [= <- <-].
  - lia.
  - rewrite length_insert. lia.
Qed.

Lemma count_zeroes_nonzeroes l :
  (count_zeroes l + length (nonzeroes l) = length l)%nat.
Proof.
  unfold count_zeroes, nonzeroes. rewrite <- length_app.
  apply Permutation_length, filter_app_complement.
Qed.

Lemma scratch_construction_closed l :
  scratch_construction l = replicate (count_zeroes l) 0 ++ nonzeroes l.
Proof.
  unfold scratch_construction, scratch_scan.
  pose proof (count_zeroes_nonzeroes l) as Hc.
  assert (Hr : nonzeroes (reverse l) = reverse (nonzeroes l))
    by apply filter_reverse.
  rewrite <- (app_nil_r (replicate (length l) 0)).
  rewrite scratch_fold_closed; rewrite Hr, length_reverse; [|lia].
  simpl. rewrite reverse_involutive, app_nil_r.
  f_equal. f_equal. lia.
Qed.

Lemma length_scratch_construction l :
  length (scratch_construction l) = length l.
Proof.
  rewrite scratch_construction_closed, length_app, length_replicate.
  apply count_zeroes_nonzeroes.
Qed.

(** ** Zero prefixes *)

(** A list with a zero prefix of length [z] has exactly [z] zeroes. *)
Lemma zero_prefix_count l : ∀ z, zero_prefix z l → z = count_zeroes l.
Proof.
  unfold count_zeroes.
  induction l as [|x l IH]; intros z [Hlo Hhi].
  - destruct z as [|z]; [done|]. by specialize (Hlo 0%nat ltac:(lia)).
  - destruct z as [|z].
    + destruct (Hhi 0%nat ltac:(simpl; lia)) as (v & [= ->] & Hv).
      rewrite filter_cons_False by done.
      apply (IH 0%nat). split; [lia|].
      intros i Hi. apply (Hhi (S i)). simpl. lia.
    + specialize (Hlo 0%nat ltac:(lia)) as Hx. injection Hx as ->.
      rewrite filter_cons_True by done. simpl. f_equal.
      apply IH. split.
      * intros i Hi. apply (Hlo (S i)). lia.
      * intros i Hi. apply (Hhi (S i)). simpl. lia.
Qed.

Lemma count_zeroes_Permutation l l' :
  l ≡ₚ l' → count_zeroes l = count_zeroes l'.
Proof. intros H. unfold count_zeroes. by rewrite H. Qed.

(** The zero prefix of a rearrangement has the length the original
    dictates. *)
Lemma zero_prefix_Permutation z l l' :
  l' ≡ₚ l → zero_prefix z l' → zero_prefix (count_zeroes l) l'.
Proof.
  intros Hp Hz. rewrite <- (count_zeroes_Permutation _ _ Hp).
  by rewrite <- (zero_prefix_count _ _ Hz).
Qed.

Lemma zero_prefix_closed l :
  zero_prefix (count_zeroes l) (replicate (count_zeroes l) 0 ++ nonzeroes l).
Proof.
  split.
  - intros i Hi. rewrite lookup_app_l by (by rewrite length_replicate).
    by apply lookup_replicate_2.
  - intros i Hi. rewrite length_app, length_replicate in Hi.
    rewrite lookup_app_r by (rewrite length_replicate; lia).
    rewrite length_replicate.
    destruct (lookup_lt_is_Some_2 (nonzeroes l) (i - count_zeroes l)) as [v Hv];
      [lia|].
    exists v. split; [done|].
    apply list_elem_of_lookup_2 in Hv. unfold nonzeroes in Hv.
    by apply list_elem_of_filter in Hv as [? _].
Qed.

Lemma closed_Permutation l :
  replicate (count_zeroes l) 0 ++ nonzeroes l ≡ₚ l.
Proof.
  rewrite <- (filter_app_complement (λ x, x = 0) l) at 3.
  apply Permutation_app; [|done]. unfold count_zeroes.
  induction l as [|x l IH]; [done|].
  destruct (decide (x = 0)) as [->|].
  - rewrite filter_cons_True by done. simpl. by rewrite IH.
  - by rewrite filter_cons_False by done.
Qed.

Lemma nonzeroes_all l : Forall (λ x, x ≠ 0) l → nonzeroes l = l.
Proof.
  unfold nonzeroes. induction 1 as [|x l Hx _ IH]; [done|].
  by rewrite filter_cons_True, IH.
Qed.

Lemma count_zeroes_none l : Forall (λ x, x ≠ 0) l → count_zeroes l = 0%nat.
Proof.
  intros H. pose proof (count_zeroes_nonzeroes l) as Hc.
  rewrite nonzeroes_all in Hc by done. lia.
Qed.

(** ** The first mover *)

Section runtime.
Variables (b ob : positive) (l : list Z).
Hypothesis Hne : b ≠ ob.
Hypothesis Hlen : Z.of_nat (length l) ≤ INT_MAX.

(** One iteration at index [k] performs one step of the scan. *)
Lemma runtime_body_run (k : nat) v s buf cur :
  mem s !! b = Some l → mem s !! ob = Some buf → l !! k = Some v →
  Z.of_nat k ≤ cur < Z.of_nat (length buf) →
  Z.of_nat (length buf) ≤ INT_MAX →
  ∃ s', runtime_body (Block b) (Block ob) (Z.of_nat k, cur) s
        = Ok (Z.of_nat k - 1, snd (scratch_step (buf, cur) v)) s'
        ∧ mem s' = <[ob := fst (scratch_step (buf, cur) v)]> (mem s)
        ∧ next_block s' = next_block s.
Proof.
  pose proof INT_MAX_eq as HM. pose proof INT_MIN_eq as Hm.
  intros Hb Hob Hv Hcur Hbuf. unfold runtime_body.
  erewrite bind_run by (eapply load_run; [done|lia|by rewrite Nat2Z.id]).
  unfold scratch_step. destruct (decide (v = 0)) as [->|Hnz]; simpl.
  - erewrite bind_run by reflexivity.
    erewrite bind_run by (apply decr_run; lia).
    eexists. split; [reflexivity|]. simpl. by rewrite insert_id.
  - apply Z.eqb_neq in Hnz as Hnz'. rewrite Hnz'. simpl.
    erewrite bind_run.
    2:{ erewrite bind_run by (eapply load_run; [exact Hb|lia|by rewrite Nat2Z.id]).
        erewrite bind_run by (eapply store_run; [exact Hob|lia]).
        apply decr_run. lia. }
    erewrite bind_run by (apply decr_run; lia).
    eexists. split; [reflexivity|]. done.
Qed.

(** The loop of the code computes the scan of the specification: with
    [k] elements still to visit, it ends with the scan of those [k]
    elements from the current buffer and cursor. *)
Lemma runtime_loop_run (k : nat) : ∀ fuel s buf cur,
  mem s !! b = Some l → mem s !! ob = Some buf →
  (k ≤ length l)%nat → (k < fuel)%nat →
  Z.of_nat k - 1 ≤ cur < Z.of_nat (length buf) →
  Z.of_nat (length buf) ≤ INT_MAX →
  ∃ s', runtime_loop fuel (Block b) (Block ob) (Z.of_nat k - 1) cur s
        = Ok (-1, snd (scratch_scan (take k l) (buf, cur))) s'
        ∧ mem s' = <[ob := fst (scratch_scan (take k l) (buf, cur))]> (mem s)
        ∧ next_block s' = next_block s.
Proof.
  induction k as [|k IH]; intros fuel s buf cur Hb Hob Hk Hf Hcur Hbuf;
    (destruct fuel as [|fuel]; [lia|]).
  - exists s. unfold runtime_loop. simpl.
    split; [reflexivity|]. split; [|done].
    by rewrite insert_id.
  - destruct (lookup_lt_is_Some_2 l k) as [v Hv]; [lia|].
    rewrite (take_S_r _ _ _ Hv), scratch_scan_snoc.
    replace (Z.of_nat (S k) - 1) with (Z.of_nat k) by lia.
    destruct (runtime_body_run k v s buf cur) as (s1 & Hrun & Hmem & Hnb);
      [done|done|done|lia|done|].
    unfold runtime_loop. cbn [while].
    erewrite bind_run by reflexivity.
    destruct (Z.leb_spec 0 (Z.of_nat k)); [|lia].
    erewrite bind_run by exact Hrun.
    destruct (scratch_step (buf, cur) v) as [buf1 cur1] eqn:Hstep.
    apply scratch_step_bounds in Hstep as [Hl1 Hc1]. simpl in *.
    destruct (IH fuel s1 buf1 cur1) as (s' & Hrun' & Hmem' & Hnb');
      [rewrite Hmem; by rewrite lookup_insert_ne
      |rewrite Hmem; by rewrite lookup_insert_eq
      |lia|lia|lia|lia|].
    exists s'. split; [exact Hrun'|].
    split; [|congruence].
    by rewrite Hmem', Hmem, insert_insert_eq.
Qed.

End runtime.

(** The first mover on a valid input: it returns [0], and the array holds
    the scratch-buffer construction of its former content; the scratch
    block is gone and nothing else in memory changed. *)
Lemma runtime_run fuel s b l n :
  wf_state s → mem s !! b = Some l →
  Z.of_nat (length l) = n → 1 ≤ n ≤ INT_MAX → (length l < fuel)%nat →
  ∃ s', ZeroesToBeginningRuntimeOptimized fuel (Block b) n s = Ok 0 s'
        ∧ mem s' = <[b := scratch_construction l]> (mem s)
        ∧ next_block s' = Pos.succ (next_block s).
Proof.
  pose proof INT_MAX_eq as HM. pose proof INT_MIN_eq as Hm.
  intros Hwf Hb <- Hrange Hfuel.
  assert (Hfresh : mem s !! next_block s = None) by (apply Hwf; lia).
  assert (Hne : b ≠ next_block s) by congruence.
  unfold ZeroesToBeginningRuntimeOptimized. simpl.
  set (n := Z.of_nat (length l)) in *.
  destruct (Z.eqb_spec n 0); [lia|].
  set (ob := next_block s) in *.
  set (s1 := mkState (<[ob := replicate (length l) 0]> (mem s)) (Pos.succ ob)
                     (trace s ++ [EvAlloc ob n]) (steps s)).
  assert (Halloc : new_int_array n s = Ok (Block ob) s1).
  { unfold new_int_array. destruct (Z.ltb_spec n 0); [lia|].
    unfold n. by rewrite Nat2Z.id. }
  erewrite bind_run by exact Halloc.
  erewrite bind_run by (apply int_sub_run; lia).
  erewrite bind_run by (apply int_sub_run; lia).
  destruct (runtime_loop_run b ob l Hne (length l) fuel s1
              (replicate (length l) 0) (n - 1))
    as (s2 & Hloop & Hmem2 & Hnb2).
  { simpl. by rewrite lookup_insert_ne. }
  { simpl. by rewrite lookup_insert_eq. }
  { lia. } { lia. }
  { rewrite length_replicate. lia. }
  { rewrite length_replicate. lia. }
  rewrite firstn_all in Hloop, Hmem2.
  fold n in Hloop. fold (scratch_construction l) in Hmem2.
  erewrite bind_run by exact Hloop.
  pose proof (length_scratch_construction l) as HlenR.
  set (R := scratch_construction l) in *.
  assert (Hb2 : mem s2 !! b = Some l).
  { rewrite Hmem2. simpl. by rewrite !lookup_insert_ne. }
  assert (Hob2 : mem s2 !! ob = Some R).
  { rewrite Hmem2. by rewrite lookup_insert_eq. }
  set (s3 := mkState (<[b := R]> (mem s2)) (next_block s2)
               (trace s2
                  ++ map (λ i, EvLoad ob (Z.of_nat i)) (seq 0 (length l))
                  ++ imap (λ i v, EvStore b (Z.of_nat i) v) R)
               (steps s2)).
  assert (Hcpy : memcpy (Block b) (Block ob) n s2 = Ok tt s3).
  { unfold memcpy. rewrite Hb2, Hob2.
    destruct (Z.leb_spec 0 n); [|lia].
    destruct (Z.leb_spec n (Z.of_nat (length l))); [|lia].
    destruct (Z.leb_spec n (Z.of_nat (length R))); [|lia].
    destruct (Pos.eqb_spec b ob); [done|]. simpl.
    unfold n. rewrite Nat2Z.id.
    rewrite skipn_all, app_nil_r, <- HlenR, firstn_all. by rewrite HlenR. }
  erewrite bind_run by exact Hcpy.
  assert (Hdel : delete_array (Block ob) s3
                 = Ok tt (mkState (delete ob (mem s3)) (next_block s3)
                                  (trace s3 ++ [EvFree ob]) (steps s3))).
  { unfold delete_array. simpl. by rewrite lookup_insert_ne, Hob2. }
  erewrite bind_run by exact Hdel.
  eexists. split; [reflexivity|]. simpl. split; [|done].
  rewrite Hmem2. simpl.
  rewrite delete_insert_ne by done.
  by rewrite delete_insert_eq, delete_insert_eq, delete_id.
Qed.

(** ** The second mover *)

Lemma zero_prefix_of_cursors z l :
  0 ≤ z → zeroes_below z l → nonzeroes_above (z - 1) l →
  zero_prefix (Z.to_nat z) l.
Proof.
  intros Hz Hlo Hhi. split.
  - intros i Hi. rewrite <- (Nat2Z.id i). apply Hlo. lia.
  - intros i Hi. rewrite <- (Nat2Z.id i). apply Hhi. lia.
Qed.

Section space.
Variables (b : positive) (F : nat).

(** The inner loop leaves memory alone and stops at the first cell at or
    after [next_zero] that is non-zero, or at [i]. *)
Lemma skip_zeroes_run l i : ∀ fuel next_zero s,
  mem s !! b = Some l →
  0 ≤ next_zero ≤ i → i < Z.of_nat (length l) → i ≤ INT_MAX →
  i - next_zero < Z.of_nat fuel →
  ∃ nz' s', skip_zeroes fuel (Block b) i next_zero s = Ok nz' s'
    ∧ mem s' = mem s ∧ next_block s' = next_block s
    ∧ Z.of_nat (steps s') = Z.of_nat (steps s) + (nz' - next_zero)
    ∧ next_zero ≤ nz' ≤ i
    ∧ (∀ j, next_zero ≤ j < nz' → l !! Z.to_nat j = Some 0)
    ∧ (nz' < i → ∃ v, l !! Z.to_nat nz' = Some v ∧ v ≠ 0).
Proof.
  pose proof INT_MAX_eq as HM. pose proof INT_MIN_eq as Hm.
  induction fuel as [|fuel IH]; intros nz s Hb Hnz Hi Himax Hf; [lia|].
  destruct (lookup_lt_is_Some_2 l (Z.to_nat nz)) as [v Hv]; [lia|].
  unfold skip_zeroes. cbn [while].
  erewrite bind_run with (a := (v =? 0) && (nz <? i)).
  2:{ erewrite bind_run by (eapply load_run; [done|lia|done]).
      by destruct (v =? 0). }
  destruct (Z.eqb_spec v 0) as [->|Hnz0]; simpl.
  - destruct (Z.ltb_spec nz i) as [Hlt|Hge].
    + erewrite bind_run by (apply incr_run; lia).
      destruct (IH (nz + 1)
                  (mkState (mem s) (next_block s)
                     (trace s ++ [EvLoad b nz]) (S (steps s))))
        as (nz' & s' & Hrun & Hmem & Hnb & Hst & Hbnd & Hz & Hstop);
        [done|lia|lia|lia|lia|].
      exists nz', s'. split; [exact Hrun|]. simpl in *.
      repeat split; try done; try lia.
      intros j Hj. destruct (decide (j = nz)) as [->|]; [done|].
      apply Hz. lia.
    + exists nz. eexists. split; [reflexivity|]. simpl.
      repeat split; try done; try lia.
  - exists nz. eexists. split; [reflexivity|]. simpl.
    repeat split; try done; try lia. eauto.
Qed.

(** One iteration of the outer loop: a permutation of the array that
    re-establishes the invariant one index lower. *)
Lemma space_body_run l i next_zero s :
  mem s !! b = Some l →
  0 ≤ next_zero < i → i < Z.of_nat (length l) →
  Z.of_nat (length l) ≤ INT_MAX → (length l ≤ F)%nat →
  zeroes_below next_zero l → nonzeroes_above i l →
  ∃ nz' s' l', space_body F (Block b) (i, next_zero) s = Ok (i - 1, nz') s'
    ∧ mem s' = <[b := l']> (mem s) ∧ next_block s' = next_block s
    ∧ l' ≡ₚ l ∧ next_zero ≤ nz'
    ∧ Z.of_nat (steps s') = Z.of_nat (steps s) + (nz' - next_zero) + 1
    ∧ space_inv (i - 1) nz' l'
    ∧ (Forall (λ x, x ≠ 0) l → l' = l).
Proof.
  pose proof INT_MAX_eq as HM. pose proof INT_MIN_eq as Hm.
  intros Hb Hnz Hi Hmax HF Hlo Hhi.
  destruct (lookup_lt_is_Some_2 l (Z.to_nat i)) as [v Hv]; [lia|].
  unfold space_body.
  erewrite bind_run by (eapply load_run; [done|lia|done]).
  destruct (Z.eqb_spec v 0) as [->|Hv0].
  - destruct (skip_zeroes_run l i F next_zero (emit (EvLoad b i) s))
      as (nz' & s1 & Hskip & Hmem1 & Hnb1 & Hst1 & Hbnd & Hz & Hstop);
      [done|lia|lia|lia|lia|].
    destruct (lookup_lt_is_Some_2 l (Z.to_nat nz')) as [w Hw]; [lia|].
    simpl in Hmem1, Hnb1, Hst1.
    erewrite bind_run.
    2:{ erewrite bind_run by exact Hskip.
        erewrite bind_run by (eapply load_run; [by rewrite Hmem1|lia|done]).
        erewrite bind_run
          by (eapply store_run; [simpl; by rewrite Hmem1|lia]).
        erewrite bind_run.
        2:{ eapply store_run; [simpl; by rewrite lookup_insert_eq|].
            rewrite length_insert. lia. }
        reflexivity. }
    erewrite bind_run by (apply decr_run; lia).
    exists nz'. eexists. eexists. split; [reflexivity|]. simpl.
    rewrite insert_insert_eq, Hmem1.
    split; [reflexivity|]. split; [done|].
    split; [by apply Permutation_insert_swap|].
    split; [lia|]. split; [lia|].
    split; [|intros Hall; by destruct (Forall_lookup_1 _ _ _ _ Hall Hv)].
    assert (Hlo' : zeroes_below nz' (<[Z.to_nat nz' := 0]> (<[Z.to_nat i := w]> l))).
    { intros j Hj. rewrite !list_lookup_insert_ne by lia.
      destruct (Z.lt_ge_cases j next_zero); [apply Hlo|apply Hz]; lia. }
    assert (Hhi' : nonzeroes_above i (<[Z.to_nat nz' := 0]> (<[Z.to_nat i := w]> l))).
    { intros j Hj. rewrite !length_insert in Hj.
      rewrite !list_lookup_insert_ne by lia. apply Hhi. lia. }
    unfold space_inv. rewrite !length_insert.
    split; [lia|]. split; [lia|]. split; [done|].
    destruct (Z.lt_ge_cases nz' i) as [Hlt|Hge].
    + left. split; [lia|]. intros j Hj. rewrite !length_insert in Hj.
      destruct (decide (j = i)) as [->|]; [|apply Hhi'; rewrite !length_insert; lia].
      destruct (Hstop Hlt) as (w' & Hw' & Hw0).
      exists w. split; [|congruence].
      rewrite list_lookup_insert_ne by lia.
      apply list_lookup_insert_eq. lia.
    + assert (nz' = i) as -> by lia. right. split; [lia|]. split.
      * intros j Hj. destruct (decide (j = i)) as [->|]; [|apply Hlo'; lia].
        apply list_lookup_insert_eq. rewrite length_insert. lia.
      * done.
  - erewrite bind_run by reflexivity.
    erewrite bind_run by (apply decr_run; lia).
    exists next_zero. eexists. exists l. split; [reflexivity|]. simpl.
    split; [by rewrite insert_id|]. split; [done|]. split; [done|].
    split; [lia|]. split; [lia|]. split; [|done].
    split; [lia|]. split; [lia|]. split; [done|].
    left. split; [lia|]. intros j Hj.
    destruct (decide (j = i)) as [->|]; [eauto|]. apply Hhi. lia.
Qed.

(** Once the cursors have met or crossed, the invariant says the array
    is a run of zeroes followed by non-zero values. *)
Lemma space_inv_exit l i next_zero :
  space_inv i next_zero l → i ≤ next_zero → ∃ z, zero_prefix z l.
Proof.
  intros (Hnz & Hi & Hlo & [[Hle Hhi]|(Heq & Hlo' & Hhi)]) Hexit.
  - assert (i = next_zero) as -> by lia.
    destruct (lookup_lt_is_Some_2 l (Z.to_nat next_zero)) as [v Hv]; [lia|].
    destruct (decide (v = 0)) as [->|Hv0].
    + exists (Z.to_nat (next_zero + 1)).
      apply zero_prefix_of_cursors; [lia| |].
      * intros j Hj. destruct (decide (j = next_zero)) as [->|]; [done|].
        apply Hlo. lia.
      * by replace (next_zero + 1 - 1) with next_zero by lia.
    + exists (Z.to_nat next_zero).
      apply zero_prefix_of_cursors; [lia|done|].
      intros j Hj. destruct (decide (j = next_zero)) as [->|]; [eauto|].
      apply Hhi. lia.
  - exists (Z.to_nat (next_zero + 1)).
    apply zero_prefix_of_cursors; [lia|done|].
    by replace (next_zero + 1 - 1) with next_zero by lia.
Qed.

(** The outer loop: from the invariant it terminates, leaves a
    permutation with all zeroes in front, and advances its two cursors
    at most [i - next_zero + 1] times in total. *)
Lemma space_loop_run : ∀ fuel l i next_zero s,
  mem s !! b = Some l → space_inv i next_zero l →
  Z.of_nat (length l) ≤ INT_MAX → (length l ≤ F)%nat →
  i - next_zero < Z.of_nat fuel → (0 < fuel)%nat →
  ∃ r s' l',
    while fuel (λ '(i, next_zero), mret (next_zero <? i))
      (space_body F (Block b)) (i, next_zero) s = Ok r s'
    ∧ mem s' = <[b := l']> (mem s) ∧ next_block s' = next_block s
    ∧ l' ≡ₚ l ∧ (∃ z, zero_prefix z l')
    ∧ Z.of_nat (steps s')
      ≤ Z.of_nat (steps s) + Z.max 0 (i - next_zero + 1)
    ∧ (Forall (λ x, x ≠ 0) l → l' = l).
Proof.
  induction fuel as [|fuel IH]; intros l i nz s Hb Hinv Hmax HF Hf Hpos;
    [lia|].
  cbn [while]. erewrite bind_run by reflexivity.
  destruct (Z.ltb_spec nz i) as [Hlt|Hge].
  - destruct Hinv as (Hnz & Hi & Hlo & [[Hle Hhi]|(Heq & _)]); [|lia].
    destruct (space_body_run l i nz s)
      as (nz' & s1 & l1 & Hbody & Hmem1 & Hnb1 & Hperm1 & Hmono & Hst1 & Hinv1 & Hid1);
      [done|lia|lia|done|done|done|done|].
    erewrite bind_run by exact Hbody.
    pose proof (Permutation_length Hperm1) as Hlen1.
    destruct (IH l1 (i - 1) nz' s1)
      as (r & s' & l' & Hrun & Hmem & Hnb & Hperm & Hz & Hst & Hid);
      [by rewrite Hmem1, lookup_insert_eq|done|lia|lia|lia|lia|].
    exists r, s', l'. split; [exact Hrun|].
    split; [by rewrite Hmem, Hmem1, insert_insert_eq|].
    split; [congruence|]. split; [by rewrite Hperm|]. split; [done|].
    split.
    + destruct Hinv1 as (Hnz1 & _ & _ & [[Hle1 _]|(Heq1 & _)]); lia.
    + intros Hall. rewrite <- (Hid1 Hall). apply Hid.
      by rewrite (Hid1 Hall).
  - exists (i, nz), s, l. split; [reflexivity|].
    split; [by rewrite insert_id|]. split; [done|]. split; [done|].
    split; [by eapply space_inv_exit|]. split; [lia|done].
Qed.

End space.

(** The second mover on a valid input: it returns [0], the array holds a
    permutation of its former content with all zeroes in front, nothing
    is allocated, and its two cursors advance at most [array_size] times
    in total. *)
Lemma space_run fuel s b l n :
  mem s !! b = Some l →
  Z.of_nat (length l) = n → 1 ≤ n ≤ INT_MAX → (length l ≤ fuel)%nat →
  ∃ s' l', ZeroesToBeginningSpaceOptimized fuel (Block b) n s = Ok 0 s'
        ∧ mem s' = <[b := l']> (mem s) ∧ next_block s' = next_block s
        ∧ l' ≡ₚ l ∧ (∃ z, zero_prefix z l')
        ∧ Z.of_nat (steps s') ≤ Z.of_nat (steps s) + n
        ∧ (Forall (λ x, x ≠ 0) l → l' = l).
Proof.
  pose proof INT_MAX_eq as HM. pose proof INT_MIN_eq as Hm.
  intros Hb <- Hrange Hfuel.
  unfold ZeroesToBeginningSpaceOptimized. simpl.
  set (n := Z.of_nat (length l)) in *.
  destruct (Z.eqb_spec n 0); [lia|].
  erewrite bind_run by (apply int_sub_run; lia).
  destruct (space_loop_run b fuel fuel l (n - 1) 0 s)
    as (r & s' & l' & Hrun & Hmem & Hnb & Hperm & Hz & Hst & Hid);
    [done| |lia|lia|lia|lia|].
  { split; [lia|]. split; [lia|]. split; [intros j Hj; lia|].
    left. split; [lia|]. intros j Hj. lia. }
  unfold space_loop. erewrite bind_run by exact Hrun.
  exists s', l'. split; [reflexivity|]. repeat split; try done. lia.
Qed.

(** ** Two calls on equal inputs *)

Lemma agree_ret {A} R (a : A) : agree R (mret a) (mret a).
Proof. intros s1 s2 r1 r2 s1' s2' HR [= <- <-] [= <- <-]. done. Qed.

Lemma agree_bind {A B} R (m1 m2 : M A) (k1 k2 : A → M B) :
  agree R m1 m2 → (∀ a, agree R (k1 a) (k2 a)) →
  agree R (m1 ≫= k1) (m2 ≫= k2).
Proof.
  intros Hm Hk s1 s2 r1 r2 s1' s2' HR H1 H2.
  apply bind_Ok_inv in H1 as (x1 & t1 & Hm1 & Hk1).
  apply bind_Ok_inv in H2 as (x2 & t2 & Hm2 & Hk2).
  destruct (Hm _ _ _ _ _ _ HR Hm1 Hm2) as [<- HR'].
  by eapply Hk.
Qed.

Lemma agree_while {L} R (c1 c2 : L → M bool) (b1 b2 : L → M L) :
  (∀ l, agree R (c1 l) (c2 l)) → (∀ l, agree R (b1 l) (b2 l)) →
  ∀ f1 f2 l, agree R (while f1 c1 b1 l) (while f2 c2 b2 l).
Proof.
  intros Hc Hb. induction f1 as [|f1 IH]; intros [|f2] l; try by intros ???????.
  cbn [while]. apply agree_bind; [apply Hc|].
  intros [|]; [|apply agree_ret].
  apply agree_bind; [apply Hb|]. intros l'. apply IH.
Qed.

Section agree.
Variables (a1 a2 o1 o2 : ptr).
Hypothesis Hinj : a1 = o1 ↔ a2 = o2.

Implicit Types (s : state) (p q : ptr).

Lemma related_inj p1 p2 q1 q2 :
  ptr_sim a1 a2 o1 o2 p1 p2 → ptr_sim a1 a2 o1 o2 q1 q2 → p1 = q1 ↔ p2 = q2.
Proof. intros [[-> ->]|[-> ->]] [[-> ->]|[-> ->]]; naive_solver. Qed.

Lemma sim_related s1 s2 p1 p2 :
  sim a1 a2 o1 o2 s1 s2 → ptr_sim a1 a2 o1 o2 p1 p2 → array_at s1 p1 = array_at s2 p2.
Proof. intros [H1 H2] [[-> ->]|[-> ->]]; done. Qed.

(** Replacing (or removing) the content of two corresponding blocks
    keeps the states related. *)
Lemma sim_update c1 c2 (x : option (list Z)) s1 s2 s1' s2' :
  ptr_sim a1 a2 o1 o2 (Block c1) (Block c2) → sim a1 a2 o1 o2 s1 s2 →
  (∀ c, mem s1' !! c = if decide (c1 = c) then x else mem s1 !! c) →
  (∀ c, mem s2' !! c = if decide (c2 = c) then x else mem s2 !! c) →
  sim a1 a2 o1 o2 s1' s2'.
Proof.
  intros Hp HR H1 H2.
  assert (Hq : ∀ q1 q2, ptr_sim a1 a2 o1 o2 q1 q2 →
               array_at s1' q1 = array_at s2' q2).
  { intros q1 q2 Hq. pose proof (sim_related _ _ _ _ HR Hq) as Hs.
    pose proof (related_inj _ _ _ _ Hq Hp) as Hi.
    destruct q1 as [x1|d1], q2 as [x2|d2]; simpl in *; try done.
    - rewrite H2. destruct (decide (c2 = d2)) as [->|]; [|done].
      discriminate (proj2 Hi eq_refl).
    - rewrite H1. destruct (decide (c1 = d1)) as [->|]; [|done].
      discriminate (proj1 Hi eq_refl).
    - rewrite H1, H2.
      destruct (decide (c1 = d1)) as [->|Hn1], (decide (c2 = d2)) as [->|Hn2];
        try done.
      + destruct Hn2. by injection (proj1 Hi eq_refl).
      + destruct Hn1. by injection (proj2 Hi eq_refl). }
  split; apply Hq; [by left|by right].
Qed.

Lemma sim_same_mem s1 s2 s1' s2' :
  sim a1 a2 o1 o2 s1 s2 → mem s1' = mem s1 → mem s2' = mem s2 → sim a1 a2 o1 o2 s1' s2'.
Proof.
  intros [H1 H2] E1 E2. unfold sim, array_at in *.
  by rewrite E1, E2.
Qed.

Lemma agree_int_sub x y : agree (sim a1 a2 o1 o2) (int_sub x y) (int_sub x y).
Proof.
  unfold int_sub. destruct (in_int (x - y)); [apply agree_ret|].
  by intros ???????.
Qed.

Lemma agree_int_add x y : agree (sim a1 a2 o1 o2) (int_add x y) (int_add x y).
Proof.
  unfold int_add. destruct (in_int (x + y)); [apply agree_ret|].
  by intros ???????.
Qed.

Lemma agree_tick : agree (sim a1 a2 o1 o2) tick tick.
Proof.
  intros s1 s2 r1 r2 s1' s2' HR [= <- <-] [= <- <-].
  split; [done|]. by eapply sim_same_mem.
Qed.

Lemma agree_decr x : agree (sim a1 a2 o1 o2) (decr x) (decr x).
Proof.
  apply agree_bind; [apply agree_tick|]. intros _. apply agree_int_sub.
Qed.

Lemma agree_incr x : agree (sim a1 a2 o1 o2) (incr x) (incr x).
Proof.
  apply agree_bind; [apply agree_tick|]. intros _. apply agree_int_add.
Qed.

Lemma agree_load p1 p2 i : ptr_sim a1 a2 o1 o2 p1 p2 → agree (sim a1 a2 o1 o2) (load p1 i) (load p2 i).
Proof.
  intros Hp s1 s2 r1 r2 s1' s2' HR H1 H2.
  pose proof (sim_related _ _ _ _ HR Hp) as Hs.
  unfold load in H1, H2.
  destruct p1 as [|c1], p2 as [|c2]; try done. simpl in Hs.
  destruct (mem s1 !! c1) as [l1|], (mem s2 !! c2) as [l2|]; try done.
  injection Hs as ->. destruct (0 <=? i); [|done].
  destruct (l2 !! Z.to_nat i); [|done].
  injection H1 as <- <-. injection H2 as <- <-.
  split; [done|]. by eapply sim_same_mem.
Qed.

Lemma agree_store p1 p2 i v :
  ptr_sim a1 a2 o1 o2 p1 p2 → agree (sim a1 a2 o1 o2) (store p1 i v) (store p2 i v).
Proof.
  intros Hp s1 s2 r1 r2 s1' s2' HR H1 H2.
  pose proof (sim_related _ _ _ _ HR Hp) as Hs.
  unfold store in H1, H2.
  destruct p1 as [|c1], p2 as [|c2]; try done. simpl in Hs.
  destruct (mem s1 !! c1) as [l1|], (mem s2 !! c2) as [l2|]; try done.
  injection Hs as ->.
  destruct ((0 <=? i) && (i <? Z.of_nat (length l2))); [|done].
  injection H1 as <- <-. injection H2 as <- <-.
  split; [done|].
  eapply (sim_update c1 c2 (Some (<[Z.to_nat i := v]> l2))); [done|done| |];
    intros c; simpl; apply lookup_insert.
Qed.

Lemma agree_memcpy d1 d2 c1 c2 n :
  ptr_sim a1 a2 o1 o2 d1 d2 → ptr_sim a1 a2 o1 o2 c1 c2 →
  agree (sim a1 a2 o1 o2) (memcpy d1 c1 n) (memcpy d2 c2 n).
Proof.
  intros Hd Hc s1 s2 r1 r2 s1' s2' HR H1 H2.
  pose proof (sim_related _ _ _ _ HR Hd) as Hsd.
  pose proof (sim_related _ _ _ _ HR Hc) as Hsc.
  unfold memcpy in H1, H2.
  destruct d1 as [|d1], d2 as [|d2]; try done.
  destruct c1 as [|c1], c2 as [|c2]; try done. simpl in Hsd, Hsc.
  destruct (mem s1 !! d1) as [ld1|], (mem s2 !! d2) as [ld2|]; try done.
  destruct (mem s1 !! c1) as [lc1|], (mem s2 !! c2) as [lc2|]; try done.
  injection Hsd as ->. injection Hsc as ->.
  destruct ((0 <=? n) && (n <=? Z.of_nat (length ld2))
            && (n <=? Z.of_nat (length lc2)) && negb (d1 =? c1)%positive);
    [|done].
  destruct ((0 <=? n) && (n <=? Z.of_nat (length ld2))
            && (n <=? Z.of_nat (length lc2)) && negb (d2 =? c2)%positive);
    [|done].
  injection H1 as <- <-. injection H2 as <- <-.
  split; [done|].
  eapply (sim_update d1 d2
            (Some (take (Z.to_nat n) lc2 ++ drop (Z.to_nat n) ld2)));
    [done|done| |]; intros c; simpl; apply lookup_insert.
Qed.

Lemma agree_delete_array p1 p2 :
  ptr_sim a1 a2 o1 o2 p1 p2 → agree (sim a1 a2 o1 o2) (delete_array p1) (delete_array p2).
Proof.
  intros Hp s1 s2 r1 r2 s1' s2' HR H1 H2.
  pose proof (sim_related _ _ _ _ HR Hp) as Hs.
  unfold delete_array in H1, H2.
  destruct p1 as [x1|c1], p2 as [x2|c2]; simpl in Hs.
  - destruct (x1 =? 0); [|done]. destruct (x2 =? 0); [|done].
    by injection H1 as <- <-; injection H2 as <- <-.
  - destruct (mem s2 !! c2); done.
  - destruct (mem s1 !! c1); done.
  - destruct (mem s1 !! c1) as [l1|], (mem s2 !! c2) as [l2|]; try done.
    injection H1 as <- <-. injection H2 as <- <-.
    split; [done|].
    eapply (sim_update c1 c2 None); [done|done| |];
      intros c; simpl; apply lookup_delete.
Qed.

(** The loops of the two movers, on corresponding pointers and with any
    two budgets. *)
Lemma agree_runtime_body p1 p2 q1 q2 x :
  ptr_sim a1 a2 o1 o2 p1 p2 → ptr_sim a1 a2 o1 o2 q1 q2 →
  agree (sim a1 a2 o1 o2) (runtime_body p1 q1 x) (runtime_body p2 q2 x).
Proof.
  intros Hp Hq. destruct x as [i next]. unfold runtime_body.
  apply agree_bind; [by apply agree_load|]. intros v.
  apply agree_bind.
  - destruct (negb (v =? 0)); [|apply agree_ret].
    apply agree_bind; [by apply agree_load|]. intros w.
    apply agree_bind; [by apply agree_store|]. intros _. apply agree_decr.
  - intros next'. apply agree_bind; [apply agree_decr|].
    intros i'. apply agree_ret.
Qed.

Lemma agree_runtime_loop f1 f2 p1 p2 q1 q2 i next :
  ptr_sim a1 a2 o1 o2 p1 p2 → ptr_sim a1 a2 o1 o2 q1 q2 →
  agree (sim a1 a2 o1 o2) (runtime_loop f1 p1 q1 i next) (runtime_loop f2 p2 q2 i next).
Proof.
  intros Hp Hq. apply agree_while.
  - intros [i' next']. apply agree_ret.
  - intros x. by apply agree_runtime_body.
Qed.

Lemma agree_skip_zeroes f1 f2 p1 p2 i next_zero :
  ptr_sim a1 a2 o1 o2 p1 p2 →
  agree (sim a1 a2 o1 o2) (skip_zeroes f1 p1 i next_zero) (skip_zeroes f2 p2 i next_zero).
Proof.
  intros Hp. apply agree_while.
  - intros nz. apply agree_bind; [by apply agree_load|].
    intros v. destruct (v =? 0); apply agree_ret.
  - intros nz. apply agree_incr.
Qed.

Lemma agree_space_body f1 f2 p1 p2 x :
  ptr_sim a1 a2 o1 o2 p1 p2 → agree (sim a1 a2 o1 o2) (space_body f1 p1 x) (space_body f2 p2 x).
Proof.
  intros Hp. destruct x as [i next_zero]. unfold space_body.
  apply agree_bind; [by apply agree_load|]. intros v.
  apply agree_bind.
  - destruct (v =? 0); [|apply agree_ret].
    apply agree_bind; [by apply agree_skip_zeroes|]. intros nz.
    apply agree_bind; [by apply agree_load|]. intros w.
    apply agree_bind; [by apply agree_store|]. intros _.
    apply agree_bind; [by apply agree_store|]. intros _.
    apply agree_ret.
  - intros nz. apply agree_bind; [apply agree_decr|].
    intros i'. apply agree_ret.
Qed.

Lemma agree_space_loop f1 f2 p1 p2 i next_zero :
  ptr_sim a1 a2 o1 o2 p1 p2 →
  agree (sim a1 a2 o1 o2) (space_loop f1 p1 i next_zero) (space_loop f2 p2 i next_zero).
Proof.
  intros Hp. apply agree_while.
  - intros [i' nz]. apply agree_ret.
  - intros x. by apply agree_space_body.
Qed.

End agree.

(** Two calls of the second mover on equal inputs cannot return
    different results, whatever the two budgets. *)
Lemma space_agree f1 f2 a1 a2 n s1 s2 v1 v2 s1' s2' :
  same_input s1 a1 s2 a2 →
  ZeroesToBeginningSpaceOptimized f1 a1 n s1 = Ok v1 s1' →
  ZeroesToBeginningSpaceOptimized f2 a2 n s2 = Ok v2 s2' →
  v1 = v2 ∧ array_at s1' a1 = array_at s2' a2.
Proof.
  intros Hin H1 H2.
  assert (Hnull : ptr_eqb a1 NULL = ptr_eqb a2 NULL).
  { destruct a1, a2; simpl in *; by subst. }
  assert (Harr : array_at s1 a1 = array_at s2 a2).
  { destruct a1, a2; simpl in *; try done. by destruct Hin. }
  unfold ZeroesToBeginningSpaceOptimized in H1, H2. rewrite Hnull in H1.
  assert (Hret : agree (sim a1 a2 a1 a2) (mret (-1)) (mret (-1)))
    by apply agree_ret.
  destruct (ptr_eqb a2 NULL).
  { by destruct (Hret _ _ _ _ _ _ (conj Harr Harr) H1 H2) as [? [? _]]. }
  destruct (n =? 0).
  { by destruct (Hret _ _ _ _ _ _ (conj Harr Harr) H1 H2) as [? [? _]]. }
  cut (v1 = v2 ∧ sim a1 a2 a1 a2 s1' s2'); [by intros [? [? _]]|].
  revert H1 H2. apply agree_bind; [apply agree_int_sub| |by split].
  intros i. apply agree_bind; [|intros _; apply agree_ret].
  apply agree_space_loop; [done|by left].
Qed.

(** The same for the first mover; the states must be well formed for the
    scratch block not to alias the array. *)
Lemma runtime_agree f1 f2 a1 a2 n s1 s2 v1 v2 s1' s2' :
  wf_state s1 → wf_state s2 → same_input s1 a1 s2 a2 →
  ZeroesToBeginningRuntimeOptimized f1 a1 n s1 = Ok v1 s1' →
  ZeroesToBeginningRuntimeOptimized f2 a2 n s2 = Ok v2 s2' →
  v1 = v2 ∧ array_at s1' a1 = array_at s2' a2.
Proof.
  intros Hwf1 Hwf2 Hin H1 H2.
  assert (Hnull : ptr_eqb a1 NULL = ptr_eqb a2 NULL).
  { destruct a1, a2; simpl in *; by subst. }
  assert (Harr : array_at s1 a1 = array_at s2 a2).
  { destruct a1, a2; simpl in *; try done. by destruct Hin. }
  unfold ZeroesToBeginningRuntimeOptimized in H1, H2. rewrite Hnull in H1.
  assert (Hret : agree (sim a1 a2 a1 a2) (mret (-1)) (mret (-1)))
    by apply agree_ret.
  destruct (ptr_eqb a2 NULL).
  { by destruct (Hret _ _ _ _ _ _ (conj Harr Harr) H1 H2) as [? [? _]]. }
  destruct (n =? 0).
  { by destruct (Hret _ _ _ _ _ _ (conj Harr Harr) H1 H2) as [? [? _]]. }
  apply bind_Ok_inv in H1 as (p1 & t1 & Hnew1 & H1).
  apply bind_Ok_inv in H2 as (p2 & t2 & Hnew2 & H2).
  unfold new_int_array in Hnew1, Hnew2. destruct (n <? 0); [done|].
  injection Hnew1 as <- <-. injection Hnew2 as <- <-.
  set (o1 := next_block s1) in *. set (o2 := next_block s2) in *.
  assert (Hne : a1 ≠ Block o1 ∧ a2 ≠ Block o2).
  { destruct a1 as [|b1], a2 as [|b2]; simpl in Hin; try done.
    destruct Hin as [Heq Hlive]. split; intros [= ->].
    - rewrite (Hwf1 o1) in Hlive by (unfold o1; lia). by destruct Hlive.
    - rewrite Heq, (Hwf2 o2) in Hlive by (unfold o2; lia). by destruct Hlive. }
  destruct Hne as [Hne1 Hne2].
  assert (Hinj : a1 = Block o1 ↔ a2 = Block o2) by done.
  cut (v1 = v2 ∧ sim a1 a2 (Block o1) (Block o2) s1' s2'); [by intros [? [? _]]|].
  revert H1 H2. apply agree_bind; [by apply agree_int_sub| |].
  - intros next. apply agree_bind; [by apply agree_int_sub|].
    intros i. apply agree_bind.
    { apply agree_runtime_loop; [done|by left|by right]. }
    intros _. apply agree_bind.
    { apply agree_memcpy; [done|by left|by right]. }
    intros _. apply agree_bind; [|intros _; apply agree_ret].
    apply agree_delete_array; [done|by right].
  - split; simpl; [|by rewrite !lookup_insert_eq].
    destruct a1 as [|b1], a2 as [|b2]; simpl in *; try done.
    rewrite !lookup_insert_ne; [done| |]; congruence.
Qed.

(** ** Both movers *)

Lemma valid_input_block s array n l :
  valid_input s array n l → ∃ b, array = Block b ∧ mem s !! b = Some l.
Proof. intros (_ & Ha & _). destruct array; [done|]. eauto. Qed.

Lemma wf_state_update s s' b l l' :
  wf_state s → mem s !! b = Some l → mem s' = <[b := l']> (mem s) →
  (next_block s ≤ next_block s')%positive → wf_state s'.
Proof.
  intros Hwf Hb Hmem Hnb c Hc. rewrite Hmem.
  rewrite lookup_insert_ne; [apply Hwf; lia|].
  intros ->. rewrite Hwf in Hb by lia. done.
Qed.

(** Either mover on a valid input: it returns [0]; only the array
    changed, into a permutation of itself with its zeroes in front; the
    state is again well formed; an array without zeroes is left as it
    was. *)
Lemma mover_run f fuel s array n l :
  valid_input s array n l → n < Z.of_nat fuel →
  ∃ b s' l', array = Block b
    ∧ run_mover f fuel array n s = Ok 0 s'
    ∧ mem s' = <[b := l']> (mem s)
    ∧ l' ≡ₚ l ∧ zero_prefix (count_zeroes l) l'
    ∧ valid_input s' array n l'
    ∧ (Forall (λ x, x ≠ 0) l → l' = l).
Proof.
  intros Hv Hfuel.
  destruct (valid_input_block _ _ _ _ Hv) as (b & -> & Hb).
  destruct Hv as (Hwf & _ & Hlen & Hn).
  destruct f; simpl.
  - destruct (runtime_run fuel s b l n) as (s' & Hrun & Hmem & Hnb);
      [done|done|done|done|lia|].
    pose proof (scratch_construction_closed l) as Hc.
    exists b, s', (scratch_construction l).
    split; [done|]. split; [done|]. split; [done|].
    split; [rewrite Hc; apply closed_Permutation|].
    split; [rewrite Hc; apply zero_prefix_closed|].
    split.
    + split; [eapply wf_state_update; [done..|lia]|].
      split; [simpl; by rewrite Hmem, lookup_insert_eq|].
      by rewrite length_scratch_construction.
    + intros Hall. rewrite Hc, count_zeroes_none, nonzeroes_all; done.
  - destruct (space_run fuel s b l n)
      as (s' & l' & Hrun & Hmem & Hnb & Hperm & [z Hz] & _ & Hid);
      [done|done|done|lia|].
    exists b, s', l'.
    split; [done|]. split; [done|]. split; [done|]. split; [done|].
    split; [by eapply zero_prefix_Permutation|].
    split; [|done].
    split; [eapply wf_state_update; [done..|lia]|].
    split; [simpl; by rewrite Hmem, lookup_insert_eq|].
    by rewrite (Permutation_length Hperm).
Qed.

(** A mover that returns, returns [-1] from one of its two guards, with
    the state as it found it, or [0] past them. *)
Lemma mover_returns f fuel array n s v s' :
  run_mover f fuel array n s = Ok v s' →
  (v = -1 ∧ s' = s ∧ (array = NULL ∨ n = 0))
  ∨ (v = 0 ∧ array ≠ NULL ∧ n ≠ 0).
Proof.
  intros H.
  assert (Hnull : ptr_eqb array NULL = true → array = NULL).
  { destruct array as [a|]; [|done]. simpl. by intros ->%Z.eqb_eq. }
  assert (Hnn : ptr_eqb array NULL = false → array ≠ NULL).
  { destruct array as [a|]; [|done]. simpl. intros ?%Z.eqb_neq [= ->]. done. }
  destruct f; simpl in H.
  - unfold ZeroesToBeginningRuntimeOptimized in H.
    destruct (ptr_eqb array NULL) eqn:Ha.
    { injection H as <- <-. left. eauto. }
    destruct (Z.eqb_spec n 0) as [->|Hn].
    { injection H as <- <-. left. eauto. }
    right.
    apply bind_Ok_inv in H as (? & ? & _ & H).
    apply bind_Ok_inv in H as (? & ? & _ & H).
    apply bind_Ok_inv in H as (? & ? & _ & H).
    apply bind_Ok_inv in H as (? & ? & _ & H).
    apply bind_Ok_inv in H as (? & ? & _ & H).
    apply bind_Ok_inv in H as (? & ? & _ & H).
    injection H as <- <-. auto.
  - unfold ZeroesToBeginningSpaceOptimized in H.
    destruct (ptr_eqb array NULL) eqn:Ha.
    { injection H as <- <-. left. eauto. }
    destruct (Z.eqb_spec n 0) as [->|Hn].
    { injection H as <- <-. left. eauto. }
    right.
    apply bind_Ok_inv in H as (? & ? & _ & H).
    apply bind_Ok_inv in H as (? & ? & _ & H).
    injection H as <- <-. auto.
Qed.

Lemma mover_rejects f fuel array n s :
  array = NULL ∨ n = 0 → run_mover f fuel array n s = Ok (-1) s.
Proof.
  intros H. destruct f; simpl;
    [unfold ZeroesToBeginningRuntimeOptimized
    |unfold ZeroesToBeginningSpaceOptimized];
    (destruct H as [->| ->]; [done|]); by destruct (ptr_eqb array NULL).
Qed.

(** The state the harness starts from is a valid input. *)
Lemma one_array_valid l :
  1 ≤ Z.of_nat (length l) ≤ INT_MAX →
  valid_input (one_array l) (Block 1) (Z.of_nat (length l)) l.
Proof.
  intros Hl. split; [|done].
  intros b Hb. simpl in *. apply lookup_singleton_ne. lia.
Qed.

Lemma test_array_valid :
  valid_input (one_array test_array) (Block 1) 10 test_array.
Proof. apply (one_array_valid test_array). by vm_compute. Qed.

(** * The claims *)

(** C1 (zero-prefix invariant).  On every valid input (a live array of
    [array_size >= 1] elements) either mover returns the success
    indicator, and with [z] the number of zeroes of the original array,
    every index in [0, z) then holds zero and every index in
    [z, array_size) holds a non-zero value. *)
Theorem C1_zero_prefix (f : mover) fuel s array array_size l :
  valid_input s array array_size l → array_size < Z.of_nat fuel →
  ∃ s' l', run_mover f fuel array array_size s = Ok 0 s'
    ∧ array_at s' array = Some l' ∧ Z.of_nat (length l') = array_size
    ∧ zero_prefix (count_zeroes l) l'.
Proof.
  intros Hv Hfuel.
  destruct (mover_run f fuel s array array_size l Hv Hfuel)
    as (b & s' & l' & -> & Hrun & Hmem & Hperm & Hz & Hv' & _).
  exists s', l'. split; [done|].
  split; [simpl; by rewrite Hmem, lookup_insert_eq|].
  split; [|done]. by destruct Hv' as (_ & _ & ? & _).
Qed.

Lemma C1_zero_prefix_witness :
  valid_input (one_array test_array) (Block 1) 10 test_array
  ∧ 10 < Z.of_nat 11
  ∧ ∃ s' l', run_mover SpaceOptimized 11 (Block 1) 10 (one_array test_array)
             = Ok 0 s'
      ∧ array_at s' (Block 1) = Some l' ∧ Z.of_nat (length l') = 10
      ∧ zero_prefix (count_zeroes test_array) l'.
Proof.
  split; [exact test_array_valid|]. split; [lia|].
  apply (C1_zero_prefix SpaceOptimized 11 (one_array test_array) (Block 1) 10
           test_array); [exact test_array_valid|lia].
Defined.

(** C2 (permutation invariant).  On every valid input either mover
    returns the success indicator and leaves in the array a permutation
    of its former content. *)
Theorem C2_permutation (f : mover) fuel s array array_size l :
  valid_input s array array_size l → array_size < Z.of_nat fuel →
  ∃ s' l', run_mover f fuel array array_size s = Ok 0 s'
    ∧ array_at s' array = Some l' ∧ l' ≡ₚ l.
Proof.
  intros Hv Hfuel.
  destruct (mover_run f fuel s array array_size l Hv Hfuel)
    as (b & s' & l' & -> & Hrun & Hmem & Hperm & _).
  exists s', l'. split; [done|].
  split; [simpl; by rewrite Hmem, lookup_insert_eq|done].
Qed.

Lemma C2_permutation_witness :
  valid_input (one_array test_array) (Block 1) 10 test_array
  ∧ 10 < Z.of_nat 11
  ∧ ∃ s' l', run_mover RuntimeOptimized 11 (Block 1) 10 (one_array test_array)
             = Ok 0 s'
      ∧ array_at s' (Block 1) = Some l' ∧ l' ≡ₚ test_array.
Proof.
  split; [exact test_array_valid|]. split; [lia|].
  apply (C2_permutation RuntimeOptimized 11 (one_array test_array) (Block 1)
           10 test_array); [exact test_array_valid|lia].
Defined.

(** C3 (invalid-input rejection).  Called with the null pointer and any
    count, or with a count of zero and any pointer (a meaningless
    non-null one included), either mover returns the failure indicator
    in the very state it was called in: the trace has no new load or
    store, and memory is unchanged. *)
Theorem C3_invalid_rejected (f : mover) fuel s array array_size :
  array = NULL ∨ array_size = 0 →
  ∃ s', run_mover f fuel array array_size s = Ok (-1) s'
    ∧ trace s' = trace s ∧ mem s' = mem s ∧ s' = s.
Proof.
  intros H. exists s. by rewrite mover_rejects.
Qed.

Lemma C3_invalid_rejected_witness :
  (Raw 1 = NULL ∨ 0 = 0)
  ∧ ∃ s', run_mover RuntimeOptimized 0 (Raw 1) 0 (one_array test_array)
          = Ok (-1) s'
      ∧ trace s' = trace (one_array test_array)
      ∧ mem s' = mem (one_array test_array) ∧ s' = one_array test_array.
Proof.
  split; [by right|].
  apply (C3_invalid_rejected RuntimeOptimized 0 (one_array test_array)
           (Raw 1) 0). by right.
Defined.

(** C4, counterexample.  A negative count is not rejected: on a live
    array and the count [-1] the second mover returns the success
    indicator, so "failure exactly when the array is absent or the count
    is non-positive" does not hold. *)
Lemma C4_negative_count_not_rejected :
  ZeroesToBeginningSpaceOptimized 1 (Block 1) (-1) (one_array test_array)
  = Ok 0 (one_array test_array)
  ∧ ¬ rejects_nonpositive SpaceOptimized 1 (one_array test_array) (Block 1) (-1).
Proof.
  assert (H : ZeroesToBeginningSpaceOptimized 1 (Block 1) (-1)
                (one_array test_array) = Ok 0 (one_array test_array))
    by reflexivity.
  split; [exact H|].
  intros [_ Hrej]. destruct Hrej as [s' Hs']; [right; lia|].
  simpl in Hs'. rewrite H in Hs'. discriminate.
Qed.

(** C4, as amended.  Each mover returns the failure indicator exactly
    when the array reference is absent or the element count is zero; it
    then leaves the state as it found it; and it returns the success
    indicator on every valid input. *)
Theorem C4_failure_iff_null_or_zero (f : mover) fuel s array array_size :
  (returns_failure f fuel s array array_size
   ↔ array = NULL ∨ array_size = 0)
  ∧ (∀ s', run_mover f fuel array array_size s = Ok (-1) s' → s' = s)
  ∧ (∀ l, valid_input s array array_size l → array_size < Z.of_nat fuel →
       ∃ s', run_mover f fuel array array_size s = Ok 0 s').
Proof.
  split; [split|split].
  - intros [s' Hs']. apply mover_returns in Hs' as [(_ & _ & H)|(? & _)]; done.
  - intros H. exists s. by apply mover_rejects.
  - intros s' Hs'. apply mover_returns in Hs' as [(_ & H & _)|(? & _)]; done.
  - intros l Hv Hfuel.
    destruct (mover_run f fuel s array array_size l Hv Hfuel)
      as (b & s' & l' & _ & Hrun & _).
    by exists s'.
Qed.

Lemma C4_failure_iff_null_or_zero_witness :
  valid_input (one_array test_array) (Block 1) 10 test_array
  ∧ 10 < Z.of_nat 11
  ∧ ∃ s', run_mover SpaceOptimized 11 (Block 1) 10 (one_array test_array)
          = Ok 0 s'.
Proof.
  split; [exact test_array_valid|]. split; [lia|].
  apply (proj2 (proj2 (C4_failure_iff_null_or_zero SpaceOptimized 11
                         (one_array test_array) (Block 1) 10)) test_array);
    [exact test_array_valid|lia].
Defined.

(** C5 (scratch-buffer construction).  On every valid input the first
    mover leaves in the array the result of the construction the
    specification describes (a zeroed buffer of the same length, filled
    from a write cursor starting at [size - 1] with the non-zero elements
    met while scanning the input from its last index to its first); this
    is the zeroes of the input followed by its non-zero elements in their
    original order. *)
Theorem C5_runtime_is_scratch_construction fuel s array array_size l :
  valid_input s array array_size l → array_size < Z.of_nat fuel →
  ∃ s', ZeroesToBeginningRuntimeOptimized fuel array array_size s = Ok 0 s'
    ∧ array_at s' array = Some (scratch_construction l)
    ∧ scratch_construction l = replicate (count_zeroes l) 0 ++ nonzeroes l.
Proof.
  intros Hv Hfuel.
  destruct (valid_input_block _ _ _ _ Hv) as (b & -> & Hb).
  destruct Hv as (Hwf & _ & Hlen & Hn).
  destruct (runtime_run fuel s b l array_size) as (s' & Hrun & Hmem & _);
    [done|done|done|done|lia|].
  exists s'. split; [done|].
  split; [simpl; by rewrite Hmem, lookup_insert_eq|].
  apply scratch_construction_closed.
Qed.

Lemma C5_runtime_is_scratch_construction_witness :
  valid_input (one_array test_array) (Block 1) 10 test_array
  ∧ 10 < Z.of_nat 11
  ∧ ∃ s', ZeroesToBeginningRuntimeOptimized 11 (Block 1) 10
            (one_array test_array) = Ok 0 s'
      ∧ array_at s' (Block 1) = Some (scratch_construction test_array)
      ∧ scratch_construction test_array
        = replicate (count_zeroes test_array) 0 ++ nonzeroes test_array.
Proof.
  split; [exact test_array_valid|]. split; [lia|].
  apply (C5_runtime_is_scratch_construction 11 (one_array test_array)
           (Block 1) 10 test_array); [exact test_array_valid|lia].
Defined.

Lemma runtime_test_array fuel :
  10 < Z.of_nat fuel →
  ∃ s', ZeroesToBeginningRuntimeOptimized fuel (Block 1) 10
          (one_array test_array) = Ok 0 s'
    ∧ array_at s' (Block 1) = Some [0;0;1;2;3;4;5;6;7;8].
Proof.
  intros Hfuel.
  destruct (runtime_run fuel (one_array test_array) 1 test_array 10)
    as (s' & Hrun & Hmem & _);
    [apply test_array_valid|done|done|by vm_compute|simpl; lia|].
  exists s'. split; [done|]. simpl. by rewrite Hmem, lookup_insert_eq.
Qed.

(** C6 (concrete scenario 1).  On the array [1,2,3,4,5,6,7,8,0,0] with
    size 10 each mover returns the success indicator and leaves one of
    the two outputs the harness accepts: the first mover
    [0,0,1,2,3,4,5,6,7,8], the second [0,0,3,4,5,6,7,8,2,1]. *)
Theorem C6_pass_scenario (f : mover) fuel :
  10 < Z.of_nat fuel →
  ∃ s', run_mover f fuel (Block 1) 10 (one_array test_array) = Ok 0 s'
    ∧ array_at s' (Block 1)
      = Some (match f with
              | RuntimeOptimized => [0;0;1;2;3;4;5;6;7;8]
              | SpaceOptimized => [0;0;3;4;5;6;7;8;2;1]
              end)
    ∧ (array_at s' (Block 1) = Some [0;0;1;2;3;4;5;6;7;8]
       ∨ array_at s' (Block 1) = Some [0;0;3;4;5;6;7;8;2;1]).
Proof.
  intros Hfuel.
  destruct (mover_run f fuel (one_array test_array) (Block 1) 10 test_array
              test_array_valid Hfuel)
    as (b & s' & l' & [= <-] & Hrun & Hmem & _).
  exists s'. split; [done|].
  assert (Hat : array_at s' (Block 1)
                = Some (match f with
                        | RuntimeOptimized => [0;0;1;2;3;4;5;6;7;8]
                        | SpaceOptimized => [0;0;3;4;5;6;7;8;2;1]
                        end)).
  { destruct f.
    - destruct (runtime_test_array fuel Hfuel) as (t & Ht & Hat).
      simpl in Hrun. rewrite Hrun in Ht. by injection Ht as <-.
    - destruct (ZeroesToBeginningSpaceOptimized 11 (Block 1) 10
                  (one_array test_array)) as [v t| | |] eqn:E11;
        try (by vm_compute in E11).
      assert (Hres : result_of (ZeroesToBeginningSpaceOptimized 11 (Block 1) 10
                                  (one_array test_array))
                     = Some (0, Some [0;0;3;4;5;6;7;8;2;1]))
        by (by vm_compute).
      rewrite E11 in Hres. simpl in Hres. injection Hres as -> Ht.
      destruct (space_agree fuel 11 (Block 1) (Block 1) 10
                  (one_array test_array) (one_array test_array) 0 0 s' t)
        as [_ Hsame]; [by split; [|eexists]|done|done|].
      by rewrite Hsame. }
  split; [done|]. destruct f; [by left|by right].
Qed.

Lemma C6_pass_scenario_witness :
  10 < Z.of_nat 11
  ∧ ∃ s', run_mover SpaceOptimized 11 (Block 1) 10 (one_array test_array)
          = Ok 0 s'
      ∧ array_at s' (Block 1) = Some [0;0;3;4;5;6;7;8;2;1]
      ∧ (array_at s' (Block 1) = Some [0;0;1;2;3;4;5;6;7;8]
         ∨ array_at s' (Block 1) = Some [0;0;3;4;5;6;7;8;2;1]).
Proof.
  split; [lia|]. apply (C6_pass_scenario SpaceOptimized 11). lia.
Defined.

(** C7 (applying a mover twice).  On every valid input a mover can be
    applied twice in a row; both times it returns the success indicator,
    and the second result, like the first, is a rearrangement with
    exactly the [z] zeroes of the original input in front and non-zero
    values behind: the same zero/non-zero partition. *)
Theorem C7_twice_same_partition (f : mover) fuel s array array_size l :
  valid_input s array array_size l → array_size < Z.of_nat fuel →
  ∃ s1 l1 s2 l2,
    run_mover f fuel array array_size s = Ok 0 s1
    ∧ array_at s1 array = Some l1
    ∧ run_mover f fuel array array_size s1 = Ok 0 s2
    ∧ array_at s2 array = Some l2
    ∧ (run_mover f fuel array array_size;;
       run_mover f fuel array array_size) s = Ok 0 s2
    ∧ zero_prefix (count_zeroes l) l1
    ∧ zero_prefix (count_zeroes l) l2
    ∧ l2 ≡ₚ l1.
Proof.
  intros Hv Hfuel.
  destruct (mover_run f fuel s array array_size l Hv Hfuel)
    as (b & s1 & l1 & -> & Hrun1 & Hmem1 & Hperm1 & Hz1 & Hv1 & _).
  destruct (mover_run f fuel s1 (Block b) array_size l1 Hv1 Hfuel)
    as (b' & s2 & l2 & [= <-] & Hrun2 & Hmem2 & Hperm2 & Hz2 & _).
  exists s1, l1, s2, l2.
  split; [done|]. split; [simpl; by rewrite Hmem1, lookup_insert_eq|].
  split; [done|]. split; [simpl; by rewrite Hmem2, lookup_insert_eq|].
  split; [by erewrite bind_run by exact Hrun1|].
  split; [done|]. split; [|done].
  by rewrite <- (count_zeroes_Permutation _ _ Hperm1).
Qed.

Lemma C7_twice_same_partition_witness :
  valid_input (one_array test_array) (Block 1) 10 test_array
  ∧ 10 < Z.of_nat 11
  ∧ ∃ s1 l1 s2 l2,
      run_mover SpaceOptimized 11 (Block 1) 10 (one_array test_array) = Ok 0 s1
      ∧ array_at s1 (Block 1) = Some l1
      ∧ run_mover SpaceOptimized 11 (Block 1) 10 s1 = Ok 0 s2
      ∧ array_at s2 (Block 1) = Some l2
      ∧ (run_mover SpaceOptimized 11 (Block 1) 10;;
         run_mover SpaceOptimized 11 (Block 1) 10) (one_array test_array)
        = Ok 0 s2
      ∧ zero_prefix (count_zeroes test_array) l1
      ∧ zero_prefix (count_zeroes test_array) l2
      ∧ l2 ≡ₚ l1.
Proof.
  split; [exact test_array_valid|]. split; [lia|].
  apply (C7_twice_same_partition SpaceOptimized 11 (one_array test_array)
           (Block 1) 10 test_array); [exact test_array_valid|lia].
Defined.

(** C8 (linear time, constant space).  On every valid input the second
    mover terminates (any budget of at least [array_size] iterations per
    loop is enough) and the advances of its outer cursor [i] and of its
    inner cursor [next_zero] number at most [array_size] together; it
    allocates nothing: the allocation pointer and the set of live blocks
    are what they were. *)
Theorem C8_space_linear fuel s array array_size l :
  valid_input s array array_size l → array_size ≤ Z.of_nat fuel →
  ∃ s', ZeroesToBeginningSpaceOptimized fuel array array_size s = Ok 0 s'
    ∧ Z.of_nat (steps s') - Z.of_nat (steps s) ≤ array_size
    ∧ next_block s' = next_block s
    ∧ dom (mem s') = dom (mem s).
Proof.
  intros Hv Hfuel.
  destruct (valid_input_block _ _ _ _ Hv) as (b & -> & Hb).
  destruct Hv as (Hwf & _ & Hlen & Hn).
  destruct (space_run fuel s b l array_size)
    as (s' & l' & Hrun & Hmem & Hnb & _ & _ & Hst & _);
    [done|done|done|lia|].
  exists s'. split; [done|]. split; [lia|]. split; [done|].
  rewrite Hmem, dom_insert_L.
  assert (Hdom : b ∈ dom (mem s)) by (apply elem_of_dom; eauto).
  by apply subseteq_union_1_L, singleton_subseteq_l.
Qed.

Lemma C8_space_linear_witness :
  valid_input (one_array test_array) (Block 1) 10 test_array
  ∧ 10 ≤ Z.of_nat 10
  ∧ ∃ s', ZeroesToBeginningSpaceOptimized 10 (Block 1) 10
            (one_array test_array) = Ok 0 s'
      ∧ Z.of_nat (steps s') - Z.of_nat (steps (one_array test_array)) ≤ 10
      ∧ next_block s' = next_block (one_array test_array)
      ∧ dom (mem s') = dom (mem (one_array test_array)).
Proof.
  split; [exact test_array_valid|]. split; [lia|].
  apply (C8_space_linear 10 (one_array test_array) (Block 1) 10 test_array);
    [exact test_array_valid|lia].
Defined.

(** C9 (determinism).  Take two calls of the same mover on equal inputs:
    the same count, and either the same raw pointer or two live arrays
    of equal content, in two well-formed states that may differ in
    everything else (other blocks, block names, trace, counters, loop
    budget).  If both calls return they return the same status and leave
    equal arrays; on a valid input both do return; and on a null pointer
    or a zero count both return the failure indicator. *)
Theorem C9_deterministic (f : mover) fuel1 fuel2 s1 s2 a1 a2 array_size :
  wf_state s1 → wf_state s2 → same_input s1 a1 s2 a2 →
  (∀ v1 v2 s1' s2',
     run_mover f fuel1 a1 array_size s1 = Ok v1 s1' →
     run_mover f fuel2 a2 array_size s2 = Ok v2 s2' →
     v1 = v2 ∧ array_at s1' a1 = array_at s2' a2)
  ∧ (∀ l, array_at s1 a1 = Some l →
       Z.of_nat (length l) = array_size → 1 ≤ array_size ≤ INT_MAX →
       array_size < Z.of_nat fuel1 → array_size < Z.of_nat fuel2 →
       ∃ s1' s2' l',
         run_mover f fuel1 a1 array_size s1 = Ok 0 s1'
         ∧ run_mover f fuel2 a2 array_size s2 = Ok 0 s2'
         ∧ array_at s1' a1 = Some l' ∧ array_at s2' a2 = Some l')
  ∧ (a1 = NULL ∨ array_size = 0 →
       run_mover f fuel1 a1 array_size s1 = Ok (-1) s1
       ∧ run_mover f fuel2 a2 array_size s2 = Ok (-1) s2).
Proof.
  intros Hwf1 Hwf2 Hin.
  assert (Hagree : ∀ v1 v2 s1' s2',
     run_mover f fuel1 a1 array_size s1 = Ok v1 s1' →
     run_mover f fuel2 a2 array_size s2 = Ok v2 s2' →
     v1 = v2 ∧ array_at s1' a1 = array_at s2' a2).
  { intros v1 v2 s1' s2' H1 H2. destruct f; simpl in H1, H2.
    - eapply (runtime_agree fuel1 fuel2 a1 a2); [exact Hwf1|exact Hwf2|exact Hin|exact H1|exact H2].
    - eapply (space_agree fuel1 fuel2 a1 a2); [exact Hin|exact H1|exact H2]. }
  split; [exact Hagree|]. split.
  - intros l Hl Hlen Hn Hf1 Hf2.
    assert (Hl2 : array_at s2 a2 = Some l).
    { destruct a1, a2; simpl in *; try done. destruct Hin as [<- _]. done. }
    destruct (mover_run f fuel1 s1 a1 array_size l) as
      (b1 & s1' & l1 & -> & Hrun1 & Hmem1 & _);
      [exact (conj Hwf1 (conj Hl (conj Hlen Hn)))|done|].
    destruct (mover_run f fuel2 s2 a2 array_size l) as
      (b2 & s2' & l2 & -> & Hrun2 & Hmem2 & _);
      [exact (conj Hwf2 (conj Hl2 (conj Hlen Hn)))|done|].
    destruct (Hagree _ _ _ _ Hrun1 Hrun2) as [_ Hsame].
    exists s1', s2', l1. split; [done|]. split; [done|].
    assert (array_at s1' (Block b1) = Some l1)
      by (simpl; by rewrite Hmem1, lookup_insert_eq).
    split; [done|]. congruence.
  - intros Hrej. split; apply mover_rejects; [done|].
    destruct Hrej as [->|]; [|by right].
    destruct a2; simpl in Hin; [left; by subst|done].
Qed.

Lemma C9_deterministic_witness :
  wf_state (one_array test_array)
  ∧ wf_state (mkState {[ 5%positive := test_array; 2%positive := [7] ]}
                9%positive [EvLoad 2 0] 3)
  ∧ same_input (one_array test_array) (Block 1)
      (mkState {[ 5%positive := test_array; 2%positive := [7] ]}
         9%positive [EvLoad 2 0] 3) (Block 5)
  ∧ ∃ s1' s2' l',
      run_mover RuntimeOptimized 11 (Block 1) 10 (one_array test_array)
      = Ok 0 s1'
      ∧ run_mover RuntimeOptimized 20 (Block 5) 10
          (mkState {[ 5%positive := test_array; 2%positive := [7] ]}
             9%positive [EvLoad 2 0] 3)
        = Ok 0 s2'
      ∧ array_at s1' (Block 1) = Some l' ∧ array_at s2' (Block 5) = Some l'.
Proof.
  assert (Hwf1 : wf_state (one_array test_array)) by apply test_array_valid.
  assert (Hwf2 : wf_state (mkState {[ 5%positive := test_array;
                                      2%positive := [7] ]}
                             9%positive [EvLoad 2 0] 3)).
  { intros b Hb. simpl in *.
    rewrite lookup_insert_ne by lia. apply lookup_singleton_ne. lia. }
  assert (Hin : same_input (one_array test_array) (Block 1)
                  (mkState {[ 5%positive := test_array; 2%positive := [7] ]}
                     9%positive [EvLoad 2 0] 3) (Block 5)).
  { split; [reflexivity|]. by eexists. }
  split; [exact Hwf1|]. split; [exact Hwf2|]. split; [exact Hin|].
  apply (proj1 (proj2 (C9_deterministic RuntimeOptimized 11 20 _ _ _ _ 10
                         Hwf1 Hwf2 Hin)) test_array);
    [reflexivity|reflexivity|by vm_compute|lia|lia].
Defined.

(** C10 (no zeroes, no change).  On every valid input without a zero,
    each mover returns the success indicator and leaves the array as it
    was, element for element. *)
Theorem C10_no_zero_unchanged (f : mover) fuel s array array_size l :
  valid_input s array array_size l → Forall (λ x, x ≠ 0) l →
  array_size < Z.of_nat fuel →
  ∃ s', run_mover f fuel array array_size s = Ok 0 s'
    ∧ array_at s' array = Some l.
Proof.
  intros Hv Hall Hfuel.
  destruct (mover_run f fuel s array array_size l Hv Hfuel)
    as (b & s' & l' & -> & Hrun & Hmem & _ & _ & _ & Hid).
  exists s'. split; [done|]. simpl.
  by rewrite Hmem, lookup_insert_eq, (Hid Hall).
Qed.

Lemma C10_no_zero_unchanged_witness :
  valid_input (one_array [3; -1; 2]) (Block 1) 3 [3; -1; 2]
  ∧ Forall (λ x, x ≠ 0) [3; -1; 2]
  ∧ 3 < Z.of_nat 4
  ∧ ∃ s', run_mover SpaceOptimized 4 (Block 1) 3 (one_array [3; -1; 2])
          = Ok 0 s'
      ∧ array_at s' (Block 1) = Some [3; -1; 2].
Proof.
  assert (Hv : valid_input (one_array [3; -1; 2]) (Block 1) 3 [3; -1; 2]).
  { apply (one_array_valid [3; -1; 2]). by vm_compute. }
  assert (Hall : Forall (λ x, x ≠ 0) [3; -1; 2]).
  { repeat constructor; lia. }
  split; [exact Hv|]. split; [exact Hall|]. split; [lia|].
  apply (C10_no_zero_unchanged SpaceOptimized 4 (one_array [3; -1; 2])
           (Block 1) 3 [3; -1; 2]); [exact Hv|exact Hall|lia].
Defined.

(** * Further properties of the two movers *)

(** ** Arrays that already have their zeroes in front *)

(** A list with a zero prefix is its zeroes followed by its non-zero
    elements. *)
Lemma zero_prefix_closed_eq l : ∀ z,
  zero_prefix z l → replicate (count_zeroes l) 0 ++ nonzeroes l = l.
Proof.
  unfold count_zeroes, nonzeroes.
  induction l as [|x l IH]; intros z [Hlo Hhi]; [done|].
  destruct z as [|z].
  - destruct (Hhi 0%nat ltac:(simpl; lia)) as (v & [= ->] & Hv).
    assert (Hz : zero_prefix 0 l).
    { split; [lia|]. intros i Hi. apply (Hhi (S i)). simpl. lia. }
    rewrite filter_cons_False by done.
    rewrite filter_cons_True by done.
    pose proof (zero_prefix_count _ _ Hz) as Hc. unfold count_zeroes in Hc.
    specialize (IH _ Hz). rewrite <- Hc in IH |- *. simpl in *. by f_equal.
  - specialize (Hlo 0%nat ltac:(lia)) as Hx. injection Hx as ->.
    rewrite filter_cons_True by done.
    rewrite filter_cons_False by (intros H; by apply H).
    simpl. f_equal. apply (IH z). split.
    + intros i Hi. apply (Hlo (S i)). lia.
    + intros i Hi. apply (Hhi (S i)). simpl. lia.
Qed.

Section space_fixed.
Variables (b : positive) (F : nat) (l : list Z) (z : nat).
Hypothesis Hz : zero_prefix z l.
Hypothesis Hmax : Z.of_nat (length l) ≤ INT_MAX.
Hypothesis HF : (length l ≤ F)%nat.

(** On such an array one iteration of the outer loop of the second mover
    changes nothing in memory: a non-zero cell is passed over, and a zero
    cell makes the inner cursor run up to [i], so that the two stores
    write zero over zero. *)
Lemma space_body_fixed i next_zero s :
  mem s !! b = Some l → 0 ≤ next_zero < i → i < Z.of_nat (length l) →
  ∃ nz' s', space_body F (Block b) (i, next_zero) s = Ok (i - 1, nz') s'
    ∧ mem s' = mem s ∧ next_block s' = next_block s ∧ next_zero ≤ nz'.
Proof.
  pose proof INT_MAX_eq as HM. pose proof INT_MIN_eq as Hm.
  intros Hb Hnz Hi.
  destruct (lookup_lt_is_Some_2 l (Z.to_nat i)) as [v Hv]; [lia|].
  unfold space_body.
  erewrite bind_run by (eapply load_run; [done|lia|done]).
  destruct (Z.eqb_spec v 0) as [->|Hv0].
  - assert (Hiz : (Z.to_nat i < z)%nat).
    { destruct (Nat.lt_ge_cases (Z.to_nat i) z) as [|Hge]; [done|].
      destruct (proj2 Hz (Z.to_nat i)) as (w & Hw & Hw0); [lia|]. congruence. }
    destruct (skip_zeroes_run b l i F next_zero (emit (EvLoad b i) s))
      as (nz' & s1 & Hskip & Hmem1 & Hnb1 & _ & Hbnd & _ & Hstop);
      [done|lia|lia|lia|lia|].
    simpl in Hmem1, Hnb1.
    assert (nz' = i) as ->.
    { destruct (Z.lt_ge_cases nz' i) as [Hlt|]; [|lia].
      destruct (Hstop Hlt) as (w & Hw & Hw0).
      rewrite (proj1 Hz (Z.to_nat nz')) in Hw by lia. congruence. }
    erewrite bind_run.
    2:{ erewrite bind_run by exact Hskip.
        erewrite bind_run by (eapply load_run; [by rewrite Hmem1|lia|done]).
        erewrite bind_run
          by (eapply store_run; [simpl; by rewrite Hmem1|lia]).
        erewrite bind_run.
        2:{ eapply store_run; [simpl; by rewrite lookup_insert_eq|].
            rewrite length_insert. lia. }
        reflexivity. }
    erewrite bind_run by (apply decr_run; lia).
    exists i. eexists. split; [reflexivity|]. simpl.
    rewrite insert_insert_eq, Hmem1, list_insert_insert_eq, list_insert_id by done.
    split; [by apply insert_id|]. split; [done|lia].
  - erewrite bind_run by reflexivity.
    erewrite bind_run by (apply decr_run; lia).
    exists next_zero. eexists. split; [reflexivity|]. simpl.
    split; [done|]. split; [done|lia].
Qed.

Lemma space_loop_fixed : ∀ fuel i next_zero s,
  mem s !! b = Some l → 0 ≤ next_zero → i < Z.of_nat (length l) →
  i - next_zero < Z.of_nat fuel → (0 < fuel)%nat →
  ∃ r s',
    while fuel (λ '(i, next_zero), mret (next_zero <? i))
      (space_body F (Block b)) (i, next_zero) s = Ok r s'
    ∧ mem s' = mem s ∧ next_block s' = next_block s.
Proof.
  induction fuel as [|fuel IH]; intros i nz s Hb Hnz Hi Hf Hpos; [lia|].
  cbn [while]. erewrite bind_run by reflexivity.
  destruct (Z.ltb_spec nz i) as [Hlt|Hge].
  - destruct (space_body_fixed i nz s) as (nz' & s1 & Hbody & Hmem1 & Hnb1 & Hle);
      [done|lia|lia|].
    erewrite bind_run by exact Hbody.
    destruct (IH (i - 1) nz' s1) as (r & s' & Hrun & Hmem & Hnb);
      [by rewrite Hmem1|lia|lia|lia|lia|].
    exists r, s'. split; [exact Hrun|]. split; congruence.
  - by exists (i, nz), s.
Qed.

End space_fixed.

(** Either mover leaves memory as it found it when the array already has
    its zeroes in front. *)
Lemma mover_fixed f fuel s array n l z :
  valid_input s array n l → zero_prefix z l → n < Z.of_nat fuel →
  ∃ s', run_mover f fuel array n s = Ok 0 s' ∧ mem s' = mem s.
Proof.
  pose proof INT_MAX_eq as HM. pose proof INT_MIN_eq as Hm.
  intros Hv Hz Hfuel.
  destruct (valid_input_block _ _ _ _ Hv) as (b & -> & Hb).
  destruct Hv as (Hwf & _ & Hlen & Hn).
  destruct f; simpl.
  - destruct (runtime_run fuel s b l n) as (s' & Hrun & Hmem & _);
      [done|done|done|done|lia|].
    exists s'. split; [done|].
    rewrite Hmem, scratch_construction_closed, (zero_prefix_closed_eq l z Hz).
    by apply insert_id.
  - unfold ZeroesToBeginningSpaceOptimized. simpl.
    destruct (Z.eqb_spec n 0); [lia|].
    erewrite bind_run by (apply int_sub_run; lia).
    destruct (space_loop_fixed b fuel l z Hz ltac:(lia) ltac:(lia)
                fuel (n - 1) 0 s) as (r & s' & Hrun & Hmem & _);
      [done|lia|lia|lia|lia|].
    unfold space_loop. erewrite bind_run by exact Hrun.
    by exists s'.
Qed.

Lemma not_null_eqb array : array ≠ NULL → ptr_eqb array NULL = false.
Proof.
  destruct array as [a|]; [|done]. simpl. intros H.
  apply Z.eqb_neq. intros ->. by apply H.
Qed.



(** X2 (arrays already in shape).  When the zeroes of a valid input
    already occupy a prefix of the array and the non-zero values the
    rest, either mover returns the success indicator and leaves the
    whole memory, the array included, exactly as it was. *)
Theorem X2_partitioned_input_unchanged (f : mover) fuel s array array_size
    l z :
  valid_input s array array_size l → zero_prefix z l →
  array_size < Z.of_nat fuel →
  ∃ s', run_mover f fuel array array_size s = Ok 0 s'
    ∧ mem s' = mem s ∧ array_at s' array = Some l.
Proof.
  intros Hv Hz Hfuel.
  destruct (mover_fixed f fuel s array array_size l z Hv Hz Hfuel)
    as (s' & Hrun & Hmem).
  exists s'. split; [done|]. split; [done|].
  destruct Hv as (_ & Ha & _). destruct array; [done|].
  simpl in *. by rewrite Hmem.
Qed.

Lemma X2_partitioned_input_unchanged_witness :
  valid_input (one_array [0; 0; 5; -2]) (Block 1) 4 [0; 0; 5; -2]
  ∧ zero_prefix 2 [0; 0; 5; -2]
  ∧ 4 < Z.of_nat 5
  ∧ ∃ s', run_mover SpaceOptimized 5 (Block 1) 4 (one_array [0; 0; 5; -2])
          = Ok 0 s'
      ∧ mem s' = mem (one_array [0; 0; 5; -2])
      ∧ array_at s' (Block 1) = Some [0; 0; 5; -2].
Proof.
  assert (Hv : valid_input (one_array [0; 0; 5; -2]) (Block 1) 4 [0; 0; 5; -2]).
  { apply (one_array_valid [0; 0; 5; -2]). by vm_compute. }
  assert (Hz : zero_prefix 2 [0; 0; 5; -2]).
  { split.
    - intros [|[|i]] Hi; [done|done|lia].
    - intros [|[|[|[|i]]]] Hi; simpl in Hi; try lia; eexists; split;
        try reflexivity; lia. }
  split; [exact Hv|]. split; [exact Hz|]. split; [lia|].
  apply (X2_partitioned_input_unchanged SpaceOptimized 5
           (one_array [0; 0; 5; -2]) (Block 1) 4 [0; 0; 5; -2] 2);
    [exact Hv|exact Hz|lia].
Defined.

(** X3 (composition).  Calling a mover, then either mover again on the
    same array, gives what the first call alone gives: the second call
    returns the success indicator and changes nothing in memory.  In
    particular each mover is idempotent, and each undoes nothing of what
    the other did. *)
Theorem X3_second_call_changes_nothing (f g : mover) fuel s array array_size
    l :
  valid_input s array array_size l → array_size < Z.of_nat fuel →
  ∃ s1 s2,
    run_mover f fuel array array_size s = Ok 0 s1
    ∧ (run_mover f fuel array array_size;;
       run_mover g fuel array array_size) s = Ok 0 s2
    ∧ mem s2 = mem s1.
Proof.
  intros Hv Hfuel.
  destruct (mover_run f fuel s array array_size l Hv Hfuel)
    as (b & s1 & l1 & -> & Hrun1 & _ & _ & Hz1 & Hv1 & _).
  destruct (mover_fixed g fuel s1 (Block b) array_size l1 _ Hv1 Hz1 Hfuel)
    as (s2 & Hrun2 & Hmem2).
  exists s1, s2. split; [done|]. split; [|done].
  by erewrite bind_run by exact Hrun1.
Qed.

Lemma X3_second_call_changes_nothing_witness :
  valid_input (one_array test_array) (Block 1) 10 test_array
  ∧ 10 < Z.of_nat 11
  ∧ ∃ s1 s2,
      run_mover RuntimeOptimized 11 (Block 1) 10 (one_array test_array)
      = Ok 0 s1
      ∧ (run_mover RuntimeOptimized 11 (Block 1) 10;;
         run_mover SpaceOptimized 11 (Block 1) 10) (one_array test_array)
        = Ok 0 s2
      ∧ mem s2 = mem s1.
Proof.
  split; [exact test_array_valid|]. split; [lia|].
  apply (X3_second_call_changes_nothing RuntimeOptimized SpaceOptimized 11
           (one_array test_array) (Block 1) 10 test_array);
    [exact test_array_valid|lia].
Defined.



(** X5 (count of one or less, second mover).  With a non-null pointer,
    wild ones included, and a count that is 1 or negative, the second
    mover returns the success indicator without a single access to
    memory: its loop condition fails at once.  At the least [int] the
    subtraction [array_size - 1] overflows, which is undefined. *)
Theorem X5_space_small_count_no_access fuel s array array_size :
  array ≠ NULL →
  (INT_MIN < array_size ≤ 1 → array_size ≠ 0 → (0 < fuel)%nat →
     ZeroesToBeginningSpaceOptimized fuel array array_size s = Ok 0 s)
  ∧ (array_size = INT_MIN →
     ZeroesToBeginningSpaceOptimized fuel array array_size s = Undefined).
Proof.
  pose proof INT_MAX_eq as HM. pose proof INT_MIN_eq as Hm.
  intros Ha. unfold ZeroesToBeginningSpaceOptimized.
  rewrite (not_null_eqb _ Ha). split.
  - intros Hn Hn0 Hfuel. destruct (Z.eqb_spec array_size 0); [lia|].
    erewrite bind_run by (apply int_sub_run; lia).
    destruct fuel as [|fuel]; [lia|].
    unfold space_loop. cbn [while].
    erewrite bind_run; [reflexivity|].
    erewrite bind_run by reflexivity.
    by destruct (Z.ltb_spec 0 (array_size - 1)); [lia|].
  - intros ->. reflexivity.
Qed.

Lemma X5_space_small_count_no_access_witness :
  Raw 1 ≠ NULL
  ∧ INT_MIN < 1 ≤ 1 ∧ 1 ≠ 0 ∧ (0 < 1)%nat
  ∧ ZeroesToBeginningSpaceOptimized 1 (Raw 1) 1 (one_array test_array)
    = Ok 0 (one_array test_array).
Proof.
  split; [done|]. split; [by vm_compute|]. split; [done|]. split; [lia|].
  apply (proj1 (X5_space_small_count_no_access 1 (one_array test_array)
                  (Raw 1) 1 ltac:(done))); [by vm_compute|done|lia].
Defined.

(** ** An array object longer than the count *)

Lemma simulates_ret {A} R (a : A) : simulates R (mret a) (mret a).
Proof. intros s1 s2 r s1' HR [= <- <-]. by exists s2. Qed.

Lemma simulates_bind {A B} R (m1 m2 : M A) (k1 k2 : A → M B) :
  simulates R m1 m2 → (∀ a, simulates R (k1 a) (k2 a)) →
  simulates R (m1 ≫= k1) (m2 ≫= k2).
Proof.
  intros Hm Hk s1 s2 r s1' HR H1.
  apply bind_Ok_inv in H1 as (x & t1 & Hm1 & Hk1).
  destruct (Hm _ _ _ _ HR Hm1) as (t2 & Hm2 & HR').
  destruct (Hk _ _ _ _ _ HR' Hk1) as (s2' & Hk2 & HR'').
  exists s2'. split; [|done]. by erewrite bind_run by exact Hm2.
Qed.

Lemma simulates_while {L} R (c1 c2 : L → M bool) (b1 b2 : L → M L) :
  (∀ l, simulates R (c1 l) (c2 l)) → (∀ l, simulates R (b1 l) (b2 l)) →
  ∀ fuel l, simulates R (while fuel c1 b1 l) (while fuel c2 b2 l).
Proof.
  intros Hc Hb. induction fuel as [|fuel IH]; intros l; [by intros ?????|].
  cbn [while]. apply simulates_bind; [apply Hc|].
  intros [|]; [|apply simulates_ret].
  apply simulates_bind; [apply Hb|]. intros l'. apply IH.
Qed.

Section extends.
Variables (b : positive) (t : list Z).

Lemma extends_same_mem s1 s2 s1' s2' :
  extends b t s1 s2 → mem s1' = mem s1 → mem s2' = mem s2 →
  next_block s1' = next_block s1 → next_block s2' = next_block s2 →
  extends b t s1' s2'.
Proof.
  intros (Hnb & Hlt & Hoth & Hl) E1 E2 N1 N2. unfold extends.
  by rewrite E1, E2, N1, N2.
Qed.

Lemma simulates_int_sub x y :
  simulates (extends b t) (int_sub x y) (int_sub x y).
Proof.
  unfold int_sub. destruct (in_int (x - y)); [apply simulates_ret|].
  by intros ?????.
Qed.

Lemma simulates_int_add x y :
  simulates (extends b t) (int_add x y) (int_add x y).
Proof.
  unfold int_add. destruct (in_int (x + y)); [apply simulates_ret|].
  by intros ?????.
Qed.

Lemma simulates_tick : simulates (extends b t) tick tick.
Proof.
  intros s1 s2 r s1' HR [= <- <-]. eexists. split; [reflexivity|].
  by eapply extends_same_mem.
Qed.

Lemma simulates_decr x : simulates (extends b t) (decr x) (decr x).
Proof.
  apply simulates_bind; [apply simulates_tick|].
  intros _. apply simulates_int_sub.
Qed.

Lemma simulates_incr x : simulates (extends b t) (incr x) (incr x).
Proof.
  apply simulates_bind; [apply simulates_tick|].
  intros _. apply simulates_int_add.
Qed.

(** A load that is in bounds in the shorter array reads the same value
    in the longer one. *)
Lemma simulates_load p i : simulates (extends b t) (load p i) (load p i).
Proof.
  intros s1 s2 r s1' HR H1. pose proof HR as (Hnb & Hlt & Hoth & l & Hl1 & Hl2).
  unfold load in *. destruct p as [|c]; [done|].
  destruct (decide (c = b)) as [->|Hc].
  - rewrite Hl1 in H1. rewrite Hl2.
    destruct (0 <=? i); [|done].
    destruct (l !! Z.to_nat i) as [v|] eqn:Hv; [|done].
    injection H1 as <- <-.
    rewrite (lookup_app_l_Some _ _ _ _ Hv).
    eexists. split; [reflexivity|]. by eapply extends_same_mem.
  - rewrite <- (Hoth c Hc). destruct (mem s1 !! c) as [lc|]; [|done].
    destruct (0 <=? i); [|done].
    destruct (lc !! Z.to_nat i) as [v|]; [|done].
    injection H1 as <- <-.
    eexists. split; [reflexivity|]. by eapply extends_same_mem.
Qed.

(** A store that is in bounds in the shorter array leaves the extra cells
    of the longer one alone. *)
Lemma simulates_store p i v :
  simulates (extends b t) (store p i v) (store p i v).
Proof.
  intros s1 s2 r s1' HR H1. pose proof HR as (Hnb & Hlt & Hoth & l & Hl1 & Hl2).
  unfold store in *. destruct p as [|c]; [done|].
  destruct (decide (c = b)) as [->|Hc].
  - rewrite Hl1 in H1. rewrite Hl2.
    destruct (Z.leb_spec 0 i); [|done].
    destruct (Z.ltb_spec i (Z.of_nat (length l))); [|done].
    injection H1 as <- <-.
    destruct (Z.ltb_spec i (Z.of_nat (length (l ++ t))));
      [|rewrite length_app in *; lia].
    eexists. split; [reflexivity|]. simpl.
    split; [done|]. split; [done|]. split.
    + intros c Hc. simpl. rewrite !lookup_insert_ne by congruence. by apply Hoth.
    + exists (<[Z.to_nat i := v]> l). simpl. rewrite !lookup_insert_eq.
      split; [done|]. by rewrite insert_app_l by lia.
  - rewrite <- (Hoth c Hc). destruct (mem s1 !! c) as [lc|]; [|done].
    destruct ((0 <=? i) && (i <? Z.of_nat (length lc))); [|done].
    injection H1 as <- <-.
    eexists. split; [reflexivity|]. simpl.
    split; [done|]. split; [done|]. split.
    + intros d Hd. simpl. destruct (decide (c = d)) as [->|].
      * by rewrite !lookup_insert_eq.
      * rewrite !lookup_insert_ne by done. by apply Hoth.
    + exists l. simpl. by rewrite !lookup_insert_ne.
Qed.

(** Copying [n] cells over the shorter array leaves the extra cells of
    the longer one alone. *)
Lemma simulates_memcpy_to c n :
  c ≠ b →
  simulates (extends b t) (memcpy (Block b) (Block c) n)
    (memcpy (Block b) (Block c) n).
Proof.
  intros Hc s1 s2 r s1' HR H1.
  pose proof HR as (Hnb & Hlt & Hoth & l & Hl1 & Hl2).
  unfold memcpy in *. rewrite Hl1 in H1. rewrite Hl2, <- (Hoth c Hc).
  destruct (mem s1 !! c) as [lc|]; [|done].
  destruct (Z.leb_spec 0 n); [|done].
  destruct (Z.leb_spec n (Z.of_nat (length l))); [|done].
  destruct (Z.leb_spec n (Z.of_nat (length (l ++ t))));
    [|rewrite length_app in *; lia].
  destruct (Z.leb_spec n (Z.of_nat (length lc))); [|done].
  destruct (negb (b =? c)%positive); [|done]. simpl in *.
  injection H1 as <- <-.
  eexists. split; [reflexivity|]. simpl.
  split; [done|]. split; [done|]. split.
  - intros d Hd. simpl. rewrite !lookup_insert_ne by congruence. by apply Hoth.
  - eexists. simpl. rewrite !lookup_insert_eq. split; [done|].
    by rewrite drop_app_le, app_assoc by lia.
Qed.

Lemma simulates_delete_array c :
  c ≠ b →
  simulates (extends b t) (delete_array (Block c)) (delete_array (Block c)).
Proof.
  intros Hc s1 s2 r s1' HR H1.
  pose proof HR as (Hnb & Hlt & Hoth & l & Hl1 & Hl2).
  unfold delete_array in *. rewrite <- (Hoth c Hc).
  destruct (mem s1 !! c) as [lc|]; [|done].
  injection H1 as <- <-.
  eexists. split; [reflexivity|]. simpl.
  split; [done|]. split; [done|]. split.
  - intros d Hd. simpl. rewrite !lookup_delete. destruct (decide (c = d)); [done|].
    by apply Hoth.
  - exists l. simpl. by rewrite !lookup_delete_ne.
Qed.

Lemma simulates_runtime_loop fuel p q i next :
  simulates (extends b t) (runtime_loop fuel p q i next)
    (runtime_loop fuel p q i next).
Proof.
  apply simulates_while.
  - intros [i' next']. apply simulates_ret.
  - intros [i' next']. unfold runtime_body.
    apply simulates_bind; [apply simulates_load|]. intros v.
    apply simulates_bind.
    + destruct (negb (v =? 0)); [|apply simulates_ret].
      apply simulates_bind; [apply simulates_load|]. intros w.
      apply simulates_bind; [apply simulates_store|]. intros _.
      apply simulates_decr.
    + intros next''. apply simulates_bind; [apply simulates_decr|].
      intros i''. apply simulates_ret.
Qed.

Lemma simulates_skip_zeroes fuel p i next_zero :
  simulates (extends b t) (skip_zeroes fuel p i next_zero)
    (skip_zeroes fuel p i next_zero).
Proof.
  apply simulates_while.
  - intros nz. apply simulates_bind; [apply simulates_load|].
    intros v. destruct (v =? 0); apply simulates_ret.
  - intros nz. apply simulates_incr.
Qed.

Lemma simulates_space_loop fuel p i next_zero :
  simulates (extends b t) (space_loop fuel p i next_zero)
    (space_loop fuel p i next_zero).
Proof.
  apply simulates_while.
  - intros [i' nz]. apply simulates_ret.
  - intros [i' nz]. unfold space_body.
    apply simulates_bind; [apply simulates_load|]. intros v.
    apply simulates_bind.
    + destruct (v =? 0); [|apply simulates_ret].
      apply simulates_bind; [apply simulates_skip_zeroes|]. intros nz'.
      apply simulates_bind; [apply simulates_load|]. intros w.
      apply simulates_bind; [apply simulates_store|]. intros _.
      apply simulates_bind; [apply simulates_store|]. intros _.
      apply simulates_ret.
    + intros nz'. apply simulates_bind; [apply simulates_decr|].
      intros i''. apply simulates_ret.
Qed.

(** Either mover, called on block [b] with the same count, does in the
    longer array what it does in the shorter one. *)
Lemma simulates_mover f fuel n :
  simulates (extends b t) (run_mover f fuel (Block b) n)
    (run_mover f fuel (Block b) n).
Proof.
  destruct f; simpl.
  - unfold ZeroesToBeginningRuntimeOptimized. simpl.
    destruct (n =? 0); [apply simulates_ret|].
    intros s1 s2 r s1' HR H1.
    pose proof HR as (Hnb & Hlt & Hoth & l & Hl1 & Hl2).
    apply bind_Ok_inv in H1 as (p & u1 & Hnew & H1).
    unfold new_int_array in Hnew.
    destruct (n <? 0) eqn:Hneg; [done|]. injection Hnew as <- <-.
    set (o := next_block s1) in *.
    assert (Ho : o ≠ b) by lia.
    erewrite bind_run
      by (unfold new_int_array; rewrite Hneg, <- Hnb; reflexivity).
    revert H1. apply simulates_bind; [apply simulates_int_sub| |].
    + intros next. apply simulates_bind; [apply simulates_int_sub|].
      intros i. apply simulates_bind; [apply simulates_runtime_loop|].
      intros _. apply simulates_bind; [by apply simulates_memcpy_to|].
      intros _. apply simulates_bind; [by apply simulates_delete_array|].
      intros _. apply simulates_ret.
    + split; [simpl; congruence|]. split; [simpl; lia|]. split.
      * intros c Hc. simpl. destruct (decide (o = c)) as [->|].
        -- by rewrite !lookup_insert_eq.
        -- rewrite !lookup_insert_ne by done. by apply Hoth.
      * exists l. simpl. by rewrite !lookup_insert_ne.
  - unfold ZeroesToBeginningSpaceOptimized. simpl.
    destruct (n =? 0); [apply simulates_ret|].
    apply simulates_bind; [apply simulates_int_sub|]. intros i.
    apply simulates_bind; [apply simulates_space_loop|]. intros _.
    apply simulates_ret.
Qed.

End extends.

(** X6 (count smaller than the array).  When the array object holds more
    cells than [array_size], either mover rearranges its first
    [array_size] cells as it would an array of exactly that length (it
    returns the success indicator and leaves there a permutation with
    the zeroes in front) and leaves the cells beyond, like every other
    block, untouched. *)
Theorem X6_cells_beyond_the_count_untouched (f : mover) fuel s b l t
    array_size :
  wf_state s → mem s !! b = Some (l ++ t) →
  Z.of_nat (length l) = array_size → 1 ≤ array_size ≤ INT_MAX →
  array_size < Z.of_nat fuel →
  ∃ s' l', run_mover f fuel (Block b) array_size s = Ok 0 s'
    ∧ mem s' !! b = Some (l' ++ t)
    ∧ l' ≡ₚ l ∧ zero_prefix (count_zeroes l) l'
    ∧ (∀ c, c ≠ b → mem s' !! c = mem s !! c).
Proof.
  intros Hwf Hb Hlen Hn Hfuel.
  set (s0 := set_block b l s).
  assert (Hb0 : mem s0 !! b = Some l) by apply lookup_insert_eq.
  assert (Hv0 : valid_input s0 (Block b) array_size l).
  { split; [|done]. by eapply (wf_state_update s s0 b (l ++ t) l). }
  assert (Hext : extends b t s0 s).
  { split; [done|]. split.
    - simpl. destruct (Pos.lt_total b (next_block s)) as [|[Heq|Hgt]]; [done| |].
      + rewrite Hwf in Hb by lia. done.
      + rewrite Hwf in Hb by lia. done.
    - split; [|by exists l].
      intros c Hc. simpl. by rewrite lookup_insert_ne. }
  destruct (mover_run f fuel s0 (Block b) array_size l Hv0 Hfuel)
    as (b' & s0' & l' & [= <-] & Hrun0 & Hmem0 & Hperm & Hz & _).
  destruct (simulates_mover b t f fuel array_size s0 s 0 s0' Hext Hrun0)
    as (s' & Hrun & _ & _ & Hoth & l'' & Hl0 & Hl').
  rewrite Hmem0, lookup_insert_eq in Hl0. injection Hl0 as <-.
  exists s', l'. split; [done|]. split; [done|]. split; [done|].
  split; [done|].
  intros c Hc. rewrite <- (Hoth c Hc), Hmem0. simpl.
  by rewrite !lookup_insert_ne.
Qed.

Lemma X6_cells_beyond_the_count_untouched_witness :
  wf_state (one_array ([3; 0; 4] ++ [0; 9]))
  ∧ mem (one_array ([3; 0; 4] ++ [0; 9])) !! 1%positive
    = Some ([3; 0; 4] ++ [0; 9])
  ∧ Z.of_nat (length [3; 0; 4]) = 3 ∧ 1 ≤ 3 ≤ INT_MAX
  ∧ 3 < Z.of_nat 4
  ∧ ∃ s' l', run_mover SpaceOptimized 4 (Block 1) 3
               (one_array ([3; 0; 4] ++ [0; 9])) = Ok 0 s'
      ∧ mem s' !! 1%positive = Some (l' ++ [0; 9])
      ∧ l' ≡ₚ [3; 0; 4] ∧ zero_prefix (count_zeroes [3; 0; 4]) l'
      ∧ (∀ c, c ≠ 1%positive →
           mem s' !! c = mem (one_array ([3; 0; 4] ++ [0; 9])) !! c).
Proof.
  assert (Hwf : wf_state (one_array ([3; 0; 4] ++ [0; 9]))).
  { apply (one_array_valid ([3; 0; 4] ++ [0; 9])). by vm_compute. }
  split; [exact Hwf|]. split; [reflexivity|]. split; [reflexivity|].
  split; [by vm_compute|]. split; [lia|].
  apply (X6_cells_beyond_the_count_untouched SpaceOptimized 4
           (one_array ([3; 0; 4] ++ [0; 9])) 1 [3; 0; 4] [0; 9] 3);
    [exact Hwf|reflexivity|reflexivity|by vm_compute|lia].
Defined.

(** * The test harness *)

Lemma io_bind_run {A B} (m : IO A) (k : A → IO B) out s a out' s' :
  m out s = Ok (a, out') s' → (m ≫= k) out s = k a out' s'.
Proof.
  intros H. unfold mbind at 1, IO_bind, io_bind.
  by erewrite bind_run by exact H.
Qed.

Lemma lift_run {A} (m : M A) out s a s' :
  m s = Ok a s' → lift m out s = Ok (a, out) s'.
Proof. intros H. unfold lift. by erewrite bind_run by exact H. Qed.

Lemma string_app_assoc (a b c : string) : (a +:+ b) +:+ c = a +:+ b +:+ c.
Proof.
  induction a as [|x a IH]; [done|].
  change (String x ((a +:+ b) +:+ c) = String x (a +:+ b +:+ c)).
  by rewrite IH.
Qed.

(** The fail scenario around any function under test whose three calls
    return. *)
Lemma fail_scenario_run (g : ptr → Z → M Z) desc out s r1 s1 r2 s2 r3 s3 :
  g NULL 0 s = Ok r1 s1 → g NULL 1 s1 = Ok r2 s2 →
  g (Raw 1) 0 s2 = Ok r3 s3 →
  UnitTestFailScenario g desc out s
  = Ok (if (r1 =? 0) || (r2 =? 0) || (r3 =? 0) then -1 else 0,
        out +:+ "UnitTestFailScenario (" +:+ desc +:+ ")... "
            +:+ (if (r1 =? 0) || (r2 =? 0) || (r3 =? 0) then "FAIL" else "Ok")
            +:+ endl)
       s3.
Proof.
  intros H1 H2 H3. unfold UnitTestFailScenario.
  erewrite io_bind_run by reflexivity.
  erewrite io_bind_run by (by apply lift_run).
  erewrite io_bind_run by (by apply lift_run).
  erewrite io_bind_run by (by apply lift_run).
  destruct (r1 =? 0), (r2 =? 0), (r3 =? 0); simpl;
    (erewrite io_bind_run by reflexivity);
    unfold mret, IO_ret, io_ret, mret, M_ret, ret;
    by rewrite !string_app_assoc.
Qed.

Lemma memcmp_ne_run a b la lb n s :
  mem s !! a = Some la → mem s !! b = Some lb →
  Z.of_nat (length la) = n → Z.of_nat (length lb) = n →
  ∃ s', memcmp_ne (Block a) (Block b) n s
        = Ok (negb (bool_decide (la = lb))) s'
    ∧ mem s' = mem s ∧ next_block s' = next_block s.
Proof.
  intros Ha Hb Hla Hlb. unfold memcmp_ne. rewrite Ha, Hb.
  destruct (Z.leb_spec 0 n); [|lia].
  destruct (Z.leb_spec n (Z.of_nat (length la))); [|lia].
  destruct (Z.leb_spec n (Z.of_nat (length lb))); [|lia]. simpl.
  rewrite !take_ge by lia. by eexists.
Qed.

Lemma end_of_scope_run b l s :
  mem s !! b = Some l →
  end_of_scope (Block b) s
  = Ok tt (mkState (delete b (mem s)) (next_block s)
                   (trace s ++ [EvFree b]) (steps s)).
Proof. intros H. unfold end_of_scope. by rewrite H. Qed.

(** The pass scenario around any function under test that returns [r]
    and leaves [result] in the test array, the two expected arrays
    being intact. *)
Lemma pass_scenario_run (g : ptr → Z → M Z) desc out s r s2 result :
  let t := next_block s in
  let e1 := Pos.succ t in
  let e2 := Pos.succ e1 in
  let ok := (r =? 0) && (bool_decide (result = expected_output_array_1)
                         || bool_decide (result = expected_output_array_2)) in
  g (Block t) 10 (pass_scenario_entry s) = Ok r s2 →
  mem s2 !! t = Some result → length result = 10%nat →
  mem s2 !! e1 = Some expected_output_array_1 →
  mem s2 !! e2 = Some expected_output_array_2 →
  ∃ s3, UnitTestPassScenario g desc out s
        = Ok (if ok then 0 else -1,
              out +:+ "UnitTestPassScenario (" +:+ desc +:+ ")... "
                  +:+ (if ok then "Ok" else "FAIL") +:+ endl) s3
    ∧ mem s3 = delete t (delete e1 (delete e2 (mem s2)))
    ∧ next_block s3 = next_block s2.
Proof.
  intros t e1 e2 ok Hg Ht Hlen He1 He2.
  assert (Hne1 : t ≠ e1) by (unfold e1; lia).
  assert (Hne2 : t ≠ e2) by (unfold e2, e1; lia).
  assert (Hne3 : e1 ≠ e2) by (unfold e2; lia).
  unfold UnitTestPassScenario.
  erewrite io_bind_run by (by apply lift_run).
  erewrite io_bind_run by (by apply lift_run).
  erewrite io_bind_run by (by apply lift_run).
  erewrite io_bind_run by reflexivity.
  erewrite io_bind_run by (apply lift_run; exact Hg).
  destruct (memcmp_ne_run t e1 result expected_output_array_1 10 s2)
    as (s2a & Hc1 & Hm2a & Hn2a); [done|done|lia|done|].
  erewrite io_bind_run by (apply lift_run; exact Hc1).
  destruct (memcmp_ne_run t e2 result expected_output_array_2 10 s2a)
    as (s2b & Hc2 & Hm2b & Hn2b);
    [by rewrite Hm2a|by rewrite Hm2a|lia|done|].
  set (sc := if bool_decide (result = expected_output_array_1) then s2a
             else s2b).
  assert (Hmc : mem sc = mem s2 ∧ next_block sc = next_block s2).
  { unfold sc. destruct (bool_decide _); split; congruence. }
  destruct Hmc as [Hmc Hnc].
  erewrite io_bind_run with
    (a := negb (bool_decide (result = expected_output_array_1)
            || bool_decide (result = expected_output_array_2)))
    (s' := sc).
  2:{ unfold sc. destruct (bool_decide (result = expected_output_array_1));
        simpl; [reflexivity|]. apply lift_run. exact Hc2. }
  set (fin := mkState (delete t (delete e1 (delete e2 (mem sc))))
                (next_block sc)
                (((trace sc ++ [EvFree e2]) ++ [EvFree e1]) ++ [EvFree t])
                (steps sc)).
  assert (Hend : (end_of_scope (Block e2);; end_of_scope (Block e1);;
                  end_of_scope (Block t)) sc = Ok tt fin).
  { erewrite bind_run by (eapply end_of_scope_run; by rewrite Hmc).
    erewrite bind_run.
    2:{ eapply end_of_scope_run. simpl.
        rewrite lookup_delete_ne by done. by rewrite Hmc. }
    eapply end_of_scope_run. simpl.
    rewrite !lookup_delete_ne by done. by rewrite Hmc. }
  exists fin. split; [|by rewrite <- Hmc, <- Hnc].
  unfold ok.
  destruct (r =? 0), (bool_decide (result = expected_output_array_1)),
    (bool_decide (result = expected_output_array_2)); simpl;
    (erewrite io_bind_run
       by (erewrite io_bind_run by reflexivity; reflexivity));
    (erewrite io_bind_run by (apply lift_run; exact Hend));
    unfold mret, IO_ret, io_ret, mret, M_ret, ret;
    by rewrite !string_app_assoc.
Qed.

(** What either mover leaves of the test array, in any state. *)
Lemma mover_test_array f fuel s b :
  valid_input s (Block b) 10 test_array → 10 < Z.of_nat fuel →
  ∃ s', run_mover f fuel (Block b) 10 s = Ok 0 s'
    ∧ mem s' = <[b := match f with
                       | RuntimeOptimized => expected_output_array_1
                       | SpaceOptimized => expected_output_array_2
                       end]> (mem s)
    ∧ wf_state s'.
Proof.
  intros Hv Hfuel.
  destruct (mover_run f fuel s (Block b) 10 test_array Hv Hfuel)
    as (b' & s' & l' & [= <-] & Hrun & Hmem & _ & _ & (Hwf' & _) & _).
  exists s'. split; [done|]. split; [|done].
  rewrite Hmem. f_equal. destruct f.
  - destruct Hv as (Hwf & Hb & _).
    destruct (runtime_run fuel s b test_array 10) as (t & Ht & Hmt & _);
      [done|done|done|by vm_compute|simpl; lia|].
    simpl in Hrun. rewrite Hrun in Ht. injection Ht as <-.
    rewrite Hmem in Hmt.
    assert (Some l' = Some (scratch_construction test_array)) as [= ->]; [|done].
    by rewrite <- (lookup_insert_eq (mem s) b l'), Hmt, lookup_insert_eq.
  - destruct (ZeroesToBeginningSpaceOptimized 11 (Block 1) 10
                (one_array test_array)) as [v t| | |] eqn:E11;
      try (by vm_compute in E11).
    assert (Hres : result_of (ZeroesToBeginningSpaceOptimized 11 (Block 1) 10
                                (one_array test_array))
                   = Some (0, Some expected_output_array_2))
      by (by vm_compute).
    rewrite E11 in Hres. simpl in Hres. injection Hres as -> Ht.
    destruct Hv as (_ & Hb & _). simpl in Hb.
    destruct (space_agree fuel 11 (Block b) (Block 1) 10
                s (one_array test_array) 0 0 s' t)
      as [_ Hsame]; [|done|done|].
    { split; [by rewrite Hb|by eexists]. }
    simpl in Hsame. rewrite Hmem, lookup_insert_eq, Ht in Hsame.
    by injection Hsame.
Qed.

(** The pass scenario on either mover: it reports success, and when it
    returns its three local arrays are gone and memory is what it was. *)
Lemma pass_scenario_mover f fuel desc out s :
  wf_state s → 10 < Z.of_nat fuel →
  ∃ s', UnitTestPassScenario (run_mover f fuel) desc out s
        = Ok (0, out +:+ "UnitTestPassScenario (" +:+ desc +:+ ")... Ok"
                 +:+ endl) s'
    ∧ mem s' = mem s ∧ wf_state s'.
Proof.
  intros Hwf Hfuel.
  set (t := next_block s). set (e1 := Pos.succ t). set (e2 := Pos.succ e1).
  assert (Hne1 : t ≠ e1) by (unfold e1; lia).
  assert (Hne2 : t ≠ e2) by (unfold e2, e1; lia).
  assert (Hne3 : e1 ≠ e2) by (unfold e2; lia).
  assert (Hv : valid_input (pass_scenario_entry s) (Block t) 10 test_array).
  { split; [|split; [|by vm_compute]].
    - intros c Hc. simpl in *. fold t e1 e2 in Hc |- *.
      rewrite !lookup_insert_ne by lia. apply Hwf. fold t. lia.
    - simpl. fold t e1 e2. rewrite !lookup_insert_ne by done.
      apply lookup_insert_eq. }
  destruct (mover_test_array f fuel _ t Hv Hfuel) as (s2 & Hrun & Hmem & Hwf2).
  set (result := match f with
                 | RuntimeOptimized => expected_output_array_1
                 | SpaceOptimized => expected_output_array_2
                 end) in *.
  assert (Hmem2 : mem s2 = <[e2 := expected_output_array_2]>
                             (<[e1 := expected_output_array_1]>
                                (<[t := result]> (mem s)))).
  { rewrite Hmem. simpl. fold t e1 e2.
    rewrite (insert_insert_ne _ t e2), (insert_insert_ne _ t e1) by done.
    by rewrite insert_insert_eq. }
  destruct (pass_scenario_run (run_mover f fuel) desc out s 0 s2 result)
    as (s3 & Hpass & Hmem3 & Hnb3).
  { exact Hrun. }
  { fold t. rewrite Hmem2, !lookup_insert_ne by done. apply lookup_insert_eq. }
  { by destruct f. }
  { fold t e1. rewrite Hmem2, lookup_insert_ne by done. apply lookup_insert_eq. }
  { fold t e1 e2. rewrite Hmem2. apply lookup_insert_eq. }
  fold t e1 e2 in Hmem3.
  assert (Hres : (0 =? 0) && (bool_decide (result = expected_output_array_1)
                   || bool_decide (result = expected_output_array_2)) = true)
    by (by destruct f).
  rewrite Hres in Hpass.
  assert (Hfresh : ∀ c, (t ≤ c)%positive → mem s !! c = None)
    by (intros c Hc; by apply Hwf).
  assert (Hback : mem s3 = mem s).
  { rewrite Hmem3, Hmem2.
    rewrite delete_insert_eq, (delete_insert_ne _ e2 e1) by done.
    rewrite delete_insert_eq, !(delete_insert_ne _ _ t) by done.
    rewrite delete_insert_eq.
    rewrite (delete_id (mem s) e2) by (apply Hfresh; unfold e2, e1; lia).
    rewrite (delete_id (mem s) e1) by (apply Hfresh; unfold e1; lia).
    apply delete_id, Hfresh. lia. }
  exists s3. split; [exact Hpass|]. split; [done|].
  assert (Hlt : (e2 < next_block s2)%positive).
  { destruct (Pos.lt_total e2 (next_block s2)) as [|[Heq|Hgt]]; [done| |].
    - specialize (Hwf2 e2 ltac:(lia)).
      by rewrite Hmem2, lookup_insert_eq in Hwf2.
    - specialize (Hwf2 e2 ltac:(lia)).
      by rewrite Hmem2, lookup_insert_eq in Hwf2. }
  intros c Hc. rewrite Hback. apply Hwf. fold t.
  rewrite Hnb3 in Hc. unfold e2, e1 in Hlt. lia.
Qed.

(** The fail scenario on either mover: all three calls are rejected, in
    the state they were made in. *)
Lemma fail_scenario_mover f fuel desc out s :
  UnitTestFailScenario (run_mover f fuel) desc out s
  = Ok (0, out +:+ "UnitTestFailScenario (" +:+ desc +:+ ")... Ok" +:+ endl) s.
Proof.
  rewrite (fail_scenario_run (run_mover f fuel) desc out s (-1) s (-1) s (-1) s);
    [done|apply mover_rejects; by left..|apply mover_rejects; by right].
Qed.

(** X7 (the fail scenario, any function under test).  If the three
    calls of the fail scenario (null pointer with count 0, null pointer
    with count 1, the pointer 1 with count 0) return, the scenario
    returns [0] and prints "Ok" exactly when none of them returned [0],
    and returns [-1] and prints "FAIL" otherwise; it does nothing to the
    machine state beyond what the three calls do. *)
Theorem X7_fail_scenario_contract (g : ptr → Z → M Z) desc out s
    r1 s1 r2 s2 r3 s3 :
  g NULL 0 s = Ok r1 s1 → g NULL 1 s1 = Ok r2 s2 →
  g (Raw 1) 0 s2 = Ok r3 s3 →
  UnitTestFailScenario g desc out s
  = Ok (if (r1 =? 0) || (r2 =? 0) || (r3 =? 0) then -1 else 0,
        out +:+ "UnitTestFailScenario (" +:+ desc +:+ ")... "
            +:+ (if (r1 =? 0) || (r2 =? 0) || (r3 =? 0) then "FAIL" else "Ok")
            +:+ endl)
       s3.
Proof. apply fail_scenario_run. Qed.

Lemma X7_fail_scenario_contract_witness :
  run_mover SpaceOptimized 0 NULL 0 (one_array test_array)
  = Ok (-1) (one_array test_array)
  ∧ run_mover SpaceOptimized 0 NULL 1 (one_array test_array)
    = Ok (-1) (one_array test_array)
  ∧ run_mover SpaceOptimized 0 (Raw 1) 0 (one_array test_array)
    = Ok (-1) (one_array test_array)
  ∧ UnitTestFailScenario (run_mover SpaceOptimized 0) "SpaceOptimized  " ""
      (one_array test_array)
    = Ok (0, "UnitTestFailScenario (SpaceOptimized  )... Ok" +:+ endl)
         (one_array test_array).
Proof.
  split; [reflexivity|]. split; [reflexivity|]. split; [reflexivity|].
  apply (X7_fail_scenario_contract (run_mover SpaceOptimized 0)
           "SpaceOptimized  " "" (one_array test_array)
           (-1) (one_array test_array) (-1) (one_array test_array)
           (-1) (one_array test_array)); reflexivity.
Defined.

(** X8 (the pass scenario, any function under test).  Let the function
    under test, called on the test array [1,2,3,4,5,6,7,8,0,0] with
    count 10, return [r] and leave [result] in the array, the two
    expected arrays being intact.  Then the scenario returns [0] and
    prints "Ok" exactly when [r] is [0] and [result] is one of the two
    expected arrays, and returns [-1] and prints "FAIL" otherwise; its
    three local arrays are gone when it returns. *)
Theorem X8_pass_scenario_contract (g : ptr → Z → M Z) desc out s r s2
    result :
  g (Block (next_block s)) 10 (pass_scenario_entry s) = Ok r s2 →
  mem s2 !! next_block s = Some result → length result = 10%nat →
  mem s2 !! Pos.succ (next_block s) = Some expected_output_array_1 →
  mem s2 !! Pos.succ (Pos.succ (next_block s))
  = Some expected_output_array_2 →
  ∃ s3,
    UnitTestPassScenario g desc out s
    = Ok (if (r =? 0) && (bool_decide (result = expected_output_array_1)
                          || bool_decide (result = expected_output_array_2))
          then 0 else -1,
          out +:+ "UnitTestPassScenario (" +:+ desc +:+ ")... "
              +:+ (if (r =? 0)
                      && (bool_decide (result = expected_output_array_1)
                          || bool_decide (result = expected_output_array_2))
                   then "Ok" else "FAIL")
              +:+ endl) s3
    ∧ mem s3 = delete (next_block s)
                 (delete (Pos.succ (next_block s))
                    (delete (Pos.succ (Pos.succ (next_block s))) (mem s2))).
Proof.
  intros Hg Ht Hlen He1 He2.
  destruct (pass_scenario_run g desc out s r s2 result Hg Ht Hlen He1 He2)
    as (s3 & Hrun & Hmem & _).
  by exists s3.
Qed.

(** A function under test that returns [0] and does nothing is failed by
    the pass scenario. *)
Lemma X8_pass_scenario_contract_witness :
  (λ (_ : ptr) (_ : Z), (mret 0 : M Z)) (Block 1) 10
    (pass_scenario_entry (mkState ∅ 1 [] 0))
  = Ok 0 (pass_scenario_entry (mkState ∅ 1 [] 0))
  ∧ mem (pass_scenario_entry (mkState ∅ 1 [] 0)) !! 1%positive
    = Some test_array
  ∧ length test_array = 10%nat
  ∧ mem (pass_scenario_entry (mkState ∅ 1 [] 0)) !! 2%positive
    = Some expected_output_array_1
  ∧ mem (pass_scenario_entry (mkState ∅ 1 [] 0)) !! 3%positive
    = Some expected_output_array_2
  ∧ ∃ s3,
      UnitTestPassScenario (λ _ _, mret 0) "stub" "" (mkState ∅ 1 [] 0)
      = Ok (-1, "UnitTestPassScenario (stub)... FAIL" +:+ endl) s3
      ∧ mem s3 = delete 1%positive
                   (delete 2%positive
                      (delete 3%positive
                         (mem (pass_scenario_entry (mkState ∅ 1 [] 0))))).
Proof.
  split; [reflexivity|]. split; [reflexivity|]. split; [reflexivity|].
  split; [reflexivity|]. split; [reflexivity|].
  apply (X8_pass_scenario_contract (λ _ _, mret 0) "stub" ""
           (mkState ∅ 1 [] 0) 0 (pass_scenario_entry (mkState ∅ 1 [] 0))
           test_array); reflexivity.
Defined.

(** X9 (the program).  From any well-formed state, [main] returns [0]
    having written the banner, one "Ok" line for each of the four
    scenarios (pass and fail scenario of the first mover, then of the
    second) and the closing line; every array the scenarios created is
    gone and memory is what it was. *)
Theorem X9_main_passes fuel out s :
  wf_state s → 10 < Z.of_nat fuel →
  ∃ s', main fuel out s = Ok (0, out +:+ transcript) s' ∧ mem s' = mem s.
Proof.
  intros Hwf Hfuel. unfold main.
  erewrite io_bind_run by reflexivity.
  destruct (pass_scenario_mover RuntimeOptimized fuel "RuntimeOptimized"
              (out +:+ endl
               +:+ "Move all zero values in a random array to its beginning"
               +:+ endl +:+ endl) s Hwf Hfuel)
    as (s1 & Hp1 & Hm1 & Hwf1).
  erewrite io_bind_run by exact Hp1.
  erewrite io_bind_run
    by apply (fail_scenario_mover RuntimeOptimized fuel).
  destruct (pass_scenario_mover SpaceOptimized fuel "SpaceOptimized  "
              ((out +:+ endl
                +:+ "Move all zero values in a random array to its beginning"
                +:+ endl +:+ endl)
               +:+ "UnitTestPassScenario (" +:+ "RuntimeOptimized" +:+ ")... Ok"
               +:+ endl
               +:+ "UnitTestFailScenario (" +:+ "RuntimeOptimized" +:+ ")... Ok"
               +:+ endl) s1 Hwf1 Hfuel)
    as (s2 & Hp2 & Hm2 & Hwf2).
  rewrite <- !string_app_assoc in Hp2 |- *.
  erewrite io_bind_run by exact Hp2.
  erewrite io_bind_run
    by apply (fail_scenario_mover SpaceOptimized fuel).
  erewrite io_bind_run by reflexivity.
  exists s2. split; [|congruence].
  unfold mret, IO_ret, io_ret, mret, M_ret, ret.
  by rewrite !string_app_assoc.
Qed.

Lemma X9_main_passes_witness :
  wf_state (mkState ∅ 1 [] 0) ∧ 10 < Z.of_nat 11
  ∧ ∃ s', main 11 "" (mkState ∅ 1 [] 0) = Ok (0, "" +:+ transcript) s'
      ∧ mem s' = mem (mkState ∅ 1 [] 0).
Proof.
  assert (Hwf : wf_state (mkState ∅ 1 [] 0)) by (intros b _; apply lookup_empty).
  split; [exact Hwf|]. split; [lia|].
  apply (X9_main_passes 11 "" (mkState ∅ 1 [] 0)); [exact Hwf|lia].
Defined.

(** * Counts that do not fit the array *)





(** * The cost of the first mover *)

Lemma memcpy_steps d c n s r s' :
  memcpy d c n s = Ok r s' → steps s' = steps s.
Proof.
  unfold memcpy. destruct d as [|d], c as [|c]; try done.
  destruct (mem s !! d), (mem s !! c); try done.
  destruct (_ && _); [|done]. by intros [= _ <-].
Qed.

Lemma delete_array_steps p s r s' :
  delete_array p s = Ok r s' → steps s' = steps s.
Proof.
  unfold delete_array. destruct p as [a|b].
  - destruct (a =? 0); [|done]. by intros [= _ <-].
  - destruct (mem s !! b); [|done]. by intros [= _ <-].
Qed.

Section runtime_steps.
Variables (b ob : positive) (l : list Z).
Hypothesis Hne : b ≠ ob.

(** One iteration advances [i], and [next_output_array] too when the
    element is not zero. *)
Lemma runtime_body_steps (k : nat) v s buf cur :
  mem s !! b = Some l → mem s !! ob = Some buf → l !! k = Some v →
  Z.of_nat k ≤ cur < Z.of_nat (length buf) →
  Z.of_nat (length buf) ≤ INT_MAX →
  ∃ s', runtime_body (Block b) (Block ob) (Z.of_nat k, cur) s
        = Ok (Z.of_nat k - 1, snd (scratch_step (buf, cur) v)) s'
        ∧ mem s' = <[ob := fst (scratch_step (buf, cur) v)]> (mem s)
        ∧ steps s' = (steps s + 1 + length (nonzeroes [v]))%nat.
Proof.
  pose proof INT_MAX_eq as HM. pose proof INT_MIN_eq as Hm.
  intros Hb Hob Hv Hcur Hbuf. unfold runtime_body.
  erewrite bind_run by (eapply load_run; [done|lia|by rewrite Nat2Z.id]).
  unfold scratch_step, nonzeroes.
  destruct (decide (v = 0)) as [->|Hnz]; simpl.
  - erewrite bind_run by reflexivity.
    erewrite bind_run by (apply decr_run; lia).
    eexists. split; [reflexivity|]. simpl.
    split; [by rewrite insert_id|]. lia.
  - apply Z.eqb_neq in Hnz as Hnz'. rewrite Hnz'. simpl.
    erewrite bind_run.
    2:{ erewrite bind_run by (eapply load_run; [exact Hb|lia|by rewrite Nat2Z.id]).
        erewrite bind_run by (eapply store_run; [exact Hob|lia]).
        apply decr_run. lia. }
    erewrite bind_run by (apply decr_run; lia).
    eexists. split; [reflexivity|]. simpl. split; [done|].
    rewrite filter_cons_True by done. simpl. lia.
Qed.

Lemma runtime_loop_steps (k : nat) : ∀ fuel s buf cur,
  mem s !! b = Some l → mem s !! ob = Some buf →
  (k ≤ length l)%nat → (k < fuel)%nat →
  Z.of_nat k - 1 ≤ cur < Z.of_nat (length buf) →
  Z.of_nat (length buf) ≤ INT_MAX →
  ∃ r s', runtime_loop fuel (Block b) (Block ob) (Z.of_nat k - 1) cur s
          = Ok r s'
    ∧ steps s' = (steps s + k + length (nonzeroes (take k l)))%nat.
Proof.
  induction k as [|k IH]; intros fuel s buf cur Hb Hob Hk Hf Hcur Hbuf;
    (destruct fuel as [|fuel]; [lia|]).
  - eexists _, s. unfold runtime_loop. simpl.
    split; [reflexivity|]. simpl. lia.
  - destruct (lookup_lt_is_Some_2 l k) as [v Hv]; [lia|].
    rewrite (take_S_r _ _ _ Hv).
    replace (Z.of_nat (S k) - 1) with (Z.of_nat k) by lia.
    destruct (runtime_body_steps k v s buf cur) as (s1 & Hrun & Hmem & Hst);
      [done|done|done|lia|done|].
    unfold runtime_loop. cbn [while].
    erewrite bind_run by reflexivity.
    destruct (Z.leb_spec 0 (Z.of_nat k)); [|lia].
    erewrite bind_run by exact Hrun.
    destruct (scratch_step (buf, cur) v) as [buf1 cur1] eqn:Hstep.
    apply scratch_step_bounds in Hstep as [Hl1 Hc1]. simpl in *.
    destruct (IH fuel s1 buf1 cur1) as (r & s' & Hrun' & Hst');
      [rewrite Hmem; by rewrite lookup_insert_ne
      |rewrite Hmem; by rewrite lookup_insert_eq
      |lia|lia|lia|lia|].
    exists r, s'. split; [exact Hrun'|].
    unfold nonzeroes in *. rewrite filter_app, length_app. lia.
Qed.

End runtime_steps.

(** X10 (cost of the first mover).  On every valid input the first
    mover returns the success indicator after advancing its cursors
    exactly [array_size] plus as many times as the array has non-zero
    elements: its main loop runs [array_size] times, whatever the
    content. *)
Theorem X10_runtime_cursor_advances fuel s array array_size l :
  valid_input s array array_size l → array_size < Z.of_nat fuel →
  ∃ s', ZeroesToBeginningRuntimeOptimized fuel array array_size s = Ok 0 s'
    ∧ steps s' = (steps s + length l + length (nonzeroes l))%nat.
Proof.
  pose proof INT_MAX_eq as HM. pose proof INT_MIN_eq as Hm.
  intros Hv Hfuel.
  destruct (valid_input_block _ _ _ _ Hv) as (b & -> & Hb).
  destruct Hv as (Hwf & _ & Hlen & Hn).
  destruct (runtime_run fuel s b l array_size) as (s' & Hrun & _);
    [done|done|done|done|lia|].
  exists s'. split; [done|].
  assert (Hfresh : mem s !! next_block s = None) by (apply Hwf; lia).
  assert (Hne : b ≠ next_block s) by congruence.
  unfold ZeroesToBeginningRuntimeOptimized in Hrun. simpl in Hrun.
  destruct (Z.eqb_spec array_size 0); [lia|].
  apply bind_Ok_inv in Hrun as (p & s1 & Hnew & Hrun).
  unfold new_int_array in Hnew.
  destruct (Z.ltb_spec array_size 0); [lia|]. injection Hnew as <- <-.
  erewrite bind_run in Hrun by (apply int_sub_run; lia).
  erewrite bind_run in Hrun by (apply int_sub_run; lia).
  apply bind_Ok_inv in Hrun as (r & s2 & Hloop & Hrun).
  apply bind_Ok_inv in Hrun as (? & s3 & Hcpy & Hrun).
  apply bind_Ok_inv in Hrun as (? & s4 & Hdel & Hrun).
  injection Hrun as <-.
  apply memcpy_steps in Hcpy. apply delete_array_steps in Hdel.
  rewrite Hdel, Hcpy.
  set (s1 := mkState _ _ _ _) in Hloop.
  destruct (runtime_loop_steps b (next_block s) l Hne (length l) fuel s1
              (replicate (Z.to_nat array_size) 0) (array_size - 1))
    as (r' & s2' & Hloop' & Hst).
  { simpl. by rewrite lookup_insert_ne. }
  { simpl. by rewrite lookup_insert_eq. }
  { lia. } { lia. }
  { rewrite length_replicate. lia. }
  { rewrite length_replicate. lia. }
  replace (Z.of_nat (length l) - 1) with (array_size - 1) in Hloop' by lia.
  rewrite Hloop in Hloop'. injection Hloop' as _ <-.
  rewrite firstn_all in Hst. by rewrite Hst.
Qed.

Lemma X10_runtime_cursor_advances_witness :
  valid_input (one_array test_array) (Block 1) 10 test_array
  ∧ 10 < Z.of_nat 11
  ∧ ∃ s', ZeroesToBeginningRuntimeOptimized 11 (Block 1) 10
            (one_array test_array) = Ok 0 s'
      ∧ steps s' = (steps (one_array test_array) + length test_array
                    + length (nonzeroes test_array))%nat.
Proof.
  split; [exact test_array_valid|]. split; [lia|].
  apply (X10_runtime_cursor_advances 11 (one_array test_array) (Block 1) 10
           test_array); [exact test_array_valid|lia].
Defined.
